(** * C-Bus network identifiers (lib/cbus-netid.js)

    A shallow embedding of the [CBusNetId] value type of homebridge-cbus:
    construction and validation, the regular expression behind [parse],
    classification, [toString], [getHash], [isEquals] and [compare],
    followed by the properties the specification states about them. *)

From Stdlib Require Import ZArith Bool List Lia Ascii String.
From Stdlib Require Import DecimalString HexadecimalString.
From Stdlib Require HexadecimalPos HexadecimalZ HexadecimalFacts.
Import ListNotations.

Local Open Scope string_scope.
Local Open Scope Z_scope.

(** * The module *)

(** ** JavaScript values reaching the module *)

(** The arguments of the constructor are [undefined], numbers or strings.
    Numbers are the integers among the JavaScript numbers; strings are
    sequences of code units, of which only the ASCII ones can match any
    pattern of the module. *)
Inductive value : Type :=
| Undefined
| Num (z : Z)
| Str (s : string).

(** [!!v] *)
Definition truthy (v : value) : bool :=
  match v with
  | Undefined => false
  | Num z => negb (z =? 0)
  | Str s => negb (s =? "")%string
  end.

(** [v === `p`] *)
Definition is_p (v : value) : bool :=
  match v with
  | Str s => (s =? "p")%string
  | _ => false
  end.

(** A component of a match result: a string or [undefined]. *)
Definition value_of_component (c : option string) : value :=
  match c with
  | Some s => Str s
  | None => Undefined
  end.

(** ** Errors

    The source throws [Error] objects that differ by their message only;
    the constructors below name them after the error kinds of the
    specification and keep what the message carries. *)

Inductive name_rule : Type :=
| ReservedWord      (* cannot be a reserved word: 'P', 'CBUS', ... *)
| ReservedCMDn      (* cannot be reserved word: 'CMDn *)
| AllNumeric        (* cannot be all numeric *)
| BadFormat.        (* format /[A-Z0-9_]{1,8}/ *)

Inductive combination_rule : Type :=
| GroupNeedsApplication     (* group netIds must have an application *)
| ApplicationNeedsNetwork   (* netIds with application must have a network *)
| UnitNeedsNetwork.         (* unit netIds must have a network *)

Inductive error : Type :=
| MissingProject                                   (* netIds must have a project *)
| InvalidProjectName (why : name_rule) (name : string)
| OutOfRange (field : string) (v : Z)              (* <field> out of range: <v> *)
| MissingUnitAddress                               (* unit netIds must have a unitAddress *)
| InvalidCombination (rule : combination_rule)
| MalformedNetId (text : string).                  (* badly formed netid: '<text>' *)

Inductive result (A : Type) : Type :=
| Ok (a : A)
| Err (e : error).
Arguments Ok {A} a.
Arguments Err {A} e.

Definition bind {A B : Type} (r : result A) (f : A -> result B) : result B :=
  match r with
  | Ok a => f a
  | Err e => Err e
  end.

Notation "'do' x <- r ; k" := (bind r (fun x => k))
  (at level 10, x name, r at level 100, k at level 200).

(** ** Regular expressions

    The fragment of ECMAScript patterns the module uses: literal
    characters, character classes under a counted greedy quantifier,
    sequence, alternation, the greedy [?] and capturing groups.  Every
    pattern of the source is anchored by [^] and [$]. *)

Definition char_class : Type := list (ascii * ascii).

Definition in_class (cls : char_class) (c : ascii) : bool :=
  existsb (fun r => (nat_of_ascii (fst r) <=? nat_of_ascii c)%nat
                    && (nat_of_ascii c <=? nat_of_ascii (snd r))%nat) cls.

Inductive regex : Type :=
| Chr (c : ascii)                                 (* a literal character *)
| Rep (lo : nat) (hi : option nat) (cls : char_class)
                                                  (* [cls]{lo,hi}; [cls]+ is {1,} *)
| Seq (r1 r2 : regex)                             (* r1 r2 *)
| Alt (r1 r2 : regex)                             (* r1|r2 *)
| Opt (r : regex)                                 (* (?:r)? *)
| Grp (i : nat) (r : regex).                      (* the i-th capturing group *)

Definition captures : Type := list (option string).
Definition continuation : Type := string -> captures -> option captures.

Fixpoint set_capture (i : nat) (s : string) (caps : captures) : captures :=
  match i, caps with
  | _, [] => []
  | O, _ :: rest => Some s :: rest
  | S i', c :: rest => c :: set_capture i' s rest
  end.

(** The part of [s] in front of its suffix [rest]. *)
Definition consumed (s rest : string) : string :=
  substring 0 (String.length s - String.length rest) s.

(** The greedy counted quantifier over a one-character atom: an iteration
    is tried first, and the rest of the pattern without it only once the
    minimum is reached. *)
Fixpoint rep_class (cls : char_class) (lo : nat) (hi : option nat)
         (s : string) (caps : captures) (k : continuation) {struct s}
  : option captures :=
  match hi with
  | Some O => k s caps
  | _ =>
    let iteration :=
      match s with
      | String c s' =>
        if in_class cls c
        then rep_class cls (Nat.pred lo) (option_map Nat.pred hi) s' caps k
        else None
      | EmptyString => None
      end in
    match lo with
    | O => match iteration with
           | Some m => Some m
           | None => k s caps
           end
    | S _ => iteration
    end
  end.

(** The backtracking matcher, in continuation-passing style: [k] is the
    rest of the pattern, and the first alternative that lets it succeed
    wins.  An optional part is tried before it is skipped, and an attempt
    that consumed nothing is refused.  The captures inside an optional
    part are still undefined when it is entered, so that resetting them
    there, as ECMAScript does, would change nothing. *)
Fixpoint rmatch (r : regex) (s : string) (caps : captures) (k : continuation)
  : option captures :=
  match r with
  | Chr c =>
    match s with
    | String d s' => if Ascii.eqb c d then k s' caps else None
    | EmptyString => None
    end
  | Rep lo hi cls => rep_class cls lo hi s caps k
  | Seq r1 r2 => rmatch r1 s caps (fun s' caps' => rmatch r2 s' caps' k)
  | Alt r1 r2 =>
    match rmatch r1 s caps k with
    | Some m => Some m
    | None => rmatch r2 s caps k
    end
  | Opt r' =>
    match rmatch r' s caps
            (fun s' caps' =>
               if (String.length s' =? String.length s)%nat
               then None else k s' caps') with
    | Some m => Some m
    | None => k s caps
    end
  | Grp i r' =>
    rmatch r' s caps (fun s' caps' => k s' (set_capture i (consumed s s') caps'))
  end.

(** [s.match(/^r$/)] for a pattern with [n] capturing groups: the match can
    only start at index 0 and has to end at the end of [s].  Component 0 is
    the whole match. *)
Definition at_end : continuation :=
  fun s caps => match s with EmptyString => Some caps | _ => None end.

Definition match_anchored (n : nat) (r : regex) (s : string) : option captures :=
  rmatch r s (Some s :: repeat None n) at_end.

Definition component (i : nat) (m : captures) : option string :=
  nth i m None.

(** Classes and patterns of the source. *)
Definition digit : char_class := [("0", "9")]%char.
Definition word : char_class := [("A", "Z"); ("0", "9"); ("_", "_")]%char.
Definition digit_or_underscore : char_class := [("0", "9"); ("_", "_")]%char.

Declare Scope regex_scope.
Delimit Scope regex_scope with re.
Infix ";;" := Seq (at level 61, right associativity) : regex_scope.
Infix "<|>" := Alt (at level 62, right associativity) : regex_scope.

(** [/^\/\/([A-Z0-9_]{1,8})(?:\/(\d{1,3})(?:\/(p|\d{1,3})(?:\/(\d{1,3}))?)?)?\/?(\d{1,3})?$/] *)
Definition NETID_REGEX : regex :=
  (Chr "/" ;; Chr "/" ;;
   Grp 1 (Rep 1 (Some 8%nat) word) ;;
   Opt (Chr "/" ;; Grp 2 (Rep 1 (Some 3%nat) digit) ;;
        Opt (Chr "/" ;; Grp 3 (Chr "p" <|> Rep 1 (Some 3%nat) digit) ;;
             Opt (Chr "/" ;; Grp 4 (Rep 1 (Some 3%nat) digit)))) ;;
   Opt (Chr "/") ;;
   Opt (Grp 5 (Rep 1 (Some 3%nat) digit)))%re.

(** [/^CMD([0-9]+)$/] *)
Definition CMDN_REGEX : regex :=
  (Chr "C" ;; Chr "M" ;; Chr "D" ;; Grp 1 (Rep 1 None digit))%re.

(** [/^([0-9_]{1,8})$/] *)
Definition NUMERIC_REGEX : regex := Grp 1 (Rep 1 (Some 8%nat) digit_or_underscore).

(** [/^([A-Z0-9_]{1,8})$/] *)
Definition FORMAT_REGEX : regex := Grp 1 (Rep 1 (Some 8%nat) word).

(** [s.match(/^r$/)] used as a condition. *)
Definition test (n : nat) (r : regex) (s : string) : bool :=
  match match_anchored n r s with
  | Some _ => true
  | None => false
  end.

(** ** Numbers and their renderings *)

(** [`${z}`] and [z.toString(10)] for an integer [z]. *)
Definition decimal (z : Z) : string :=
  DecimalString.NilZero.string_of_int (Z.to_int z).

(** [z.toString(16)] for an integer [z]: lowercase digits, a leading [-]
    for a negative number. *)
Definition hexadecimal (z : Z) : string :=
  HexadecimalString.NilZero.string_of_int (Z.to_hex_int z).

(** [`${v}`] for a field that may be [undefined]. *)
Definition interpolate (v : option Z) : string :=
  match v with
  | Some z => decimal z
  | None => "undefined"
  end.

(** The 32-bit integer operations of [getHash].  [ToInt32] of [undefined]
    is 0. *)
Definition ToInt32 (z : Z) : Z := (z + 2 ^ 31) mod 2 ^ 32 - 2 ^ 31.

Definition int32_of_field (v : option Z) : Z :=
  match v with
  | Some z => ToInt32 z
  | None => 0
  end.

(** [a << n] *)
Definition shl32 (a : Z) (n : Z) : Z :=
  ToInt32 (Z.shiftl (ToInt32 a) (n mod 32)).

(** [a | b] *)
Definition or32 (a b : Z) : Z := ToInt32 (Z.lor (ToInt32 a) (ToInt32 b)).

(** [a === b] on fields holding a number or [undefined]. *)
Definition strict_eq (a b : option Z) : bool :=
  match a, b with
  | None, None => true
  | Some x, Some y => x =? y
  | _, _ => false
  end.

Definition defined (v : option Z) : bool :=
  match v with
  | Some _ => true
  | None => false
  end.

(** [!!v] for a field holding a number or [undefined]. *)
Definition truthy_field (v : option Z) : bool :=
  match v with
  | Some z => negb (z =? 0)
  | None => false
  end.

(** Modelled from the spec: [cbusUtils.integerise] lives in cbus-utils.js,
    which is not part of the sources at hand.  Section 4.1 of the
    specification: numeric fields are coerced from string-or-number input,
    and a value that cannot be interpreted as an integer is treated as
    absent, not as an error.  A number is taken as it is, a string that is
    a decimal numeral (with an optional minus sign) as the integer it
    denotes, anything else as [undefined]. *)
Definition integerise (v : value) : option Z :=
  match v with
  | Undefined => None
  | Num z => Some z
  | Str s => option_map Z.of_int (DecimalString.NilZero.int_of_string s)
  end.

(** ** The identifier *)

Record NetId : Type := mkNetId {
  project : string;
  network : option Z;
  application : option Z;
  group : option Z;
  unitAddress : option Z;
  channel : option Z
}.

(** *** Validation *)

Definition cgateReservedWords : list string :=
  ["P"; "CBUS"; "VM"; "CMDINT"; "CGATE"; "TAG"].

Definition validatedProjectName (name : string) : result string :=
  if existsb (String.eqb name) cgateReservedWords
  then Err (InvalidProjectName ReservedWord name)
  else if test 1 CMDN_REGEX name
  then Err (InvalidProjectName ReservedCMDn name)
  else if test 1 NUMERIC_REGEX name
  then Err (InvalidProjectName AllNumeric name)
  else if negb (test 1 FORMAT_REGEX name)
  then Err (InvalidProjectName BadFormat name)
  else Ok name.

Definition validatedNumber (v : value) (name : string) : result (option Z) :=
  let value := integerise v in
  match value with
  | Some z =>
    if (z <? 0) || (z >? 255) then Err (OutOfRange name z) else Ok value
  | None => Ok value
  end.

Definition validatedChannelNumber (v : value) : result (option Z) :=
  let value := integerise v in
  match value with
  | Some z =>
    if negb (z =? 0) && ((z <=? 0) || (z >=? 8))
    then Err (OutOfRange "channel" z) else Ok value
  | None => Ok value
  end.

(** *** The constructor

    [new CBusNetId(project, network, param3, param4, param5)]: the fields
    are assigned in the order of the source, and the first check that
    fails ends the construction.  A field the source never assigns is
    [undefined]. *)
Definition CBusNetId (project : option string)
           (network param3 param4 param5 : value) : result NetId :=
  match project with
  | None => Err MissingProject
  | Some name =>
    do this_project <- validatedProjectName name;
    do this_channel <-
       (if truthy param5 then validatedChannelNumber param5 else Ok None);
    do this_network <- validatedNumber network "network";
    do branch <-
       (if is_p param3 then
          do this_unitAddress <- validatedNumber param4 "unitAddress";
          if negb (defined this_unitAddress)
          then Err MissingUnitAddress
          else Ok (None, None, this_unitAddress)
        else
          do this_application <- validatedNumber param3 "application";
          do this_group <- validatedNumber param4 "group";
          if defined this_group && negb (defined this_application)
          then Err (InvalidCombination GroupNeedsApplication)
          else Ok (this_application, this_group, None));
    let '(this_application, this_group, this_unitAddress) := branch in
    let this := mkNetId this_project this_network this_application
                        this_group this_unitAddress this_channel in
    if negb (defined this_network) then
      if defined this_application
      then Err (InvalidCombination ApplicationNeedsNetwork)
      else if defined this_unitAddress
      then Err (InvalidCombination UnitNeedsNetwork)
      else Ok this
    else Ok this
  end.

(** *** Classification *)

Definition isProjectId (this : NetId) : bool :=
  negb (defined (network this)).

Definition isNetworkId (this : NetId) : bool :=
  defined (network this) && negb (defined (application this))
  && negb (defined (unitAddress this)).

Definition isApplicationId (this : NetId) : bool :=
  defined (application this) && negb (defined (group this)).

Definition isGroupId (this : NetId) : bool :=
  negb (isApplicationId this) && negb (truthy_field (channel this))
  && defined (group this).

Definition isUnitId (this : NetId) : bool :=
  defined (unitAddress this).

(** *** Formatting *)

Definition toString (this : NetId) : string :=
  if isProjectId this then
    "//" ++ project this
  else if isNetworkId this then
    "//" ++ project this ++ "/" ++ interpolate (network this)
  else if isApplicationId this then
    "//" ++ project this ++ "/" ++ interpolate (network this)
         ++ "/" ++ interpolate (application this)
  else if isGroupId this then
    "//" ++ project this ++ "/" ++ interpolate (network this)
         ++ "/" ++ interpolate (application this)
         ++ "/" ++ interpolate (group this)
  else if truthy_field (channel this) then
    "//" ++ project this ++ "/" ++ interpolate (network this)
         ++ "/" ++ interpolate (application this)
         ++ "/" ++ interpolate (group this)
         ++ "/" ++ interpolate (channel this)
  else
    "//" ++ project this ++ "/" ++ interpolate (network this)
         ++ "/p/" ++ interpolate (unitAddress this).

Definition inspect (this : NetId) : string := toString this.

Definition getHash (this : NetId) : string :=
  if isProjectId this then
    project this
  else if isUnitId this then
    hexadecimal
      (or32 (or32 (shl32 2 24) (shl32 (int32_of_field (network this)) 16))
            (int32_of_field (unitAddress this)))
  else
    hexadecimal
      (or32 (or32 (or32 (shl32 1 24) (shl32 (int32_of_field (network this)) 16))
                  (shl32 (int32_of_field (application this)) 8))
            (int32_of_field (group this))).

(** *** Relations between identifiers *)

Definition isSameNetwork (this other : NetId) : bool :=
  strict_eq (network this) (network other).

Definition isSameApplication (this other : NetId) : bool :=
  strict_eq (application this) (application other).

Definition isEquals (this other : NetId) : bool :=
  if negb (project this =? project other)%string then false
  else
    let ah := getHash this in
    let bh := getHash other in
    (ah =? bh)%string.

(** [a < b] on strings: code units compared from the left, a proper prefix
    first. *)
Definition string_lt (a b : string) : bool := (a <? b)%string.

Definition compare (a b : NetId) : Z :=
  if negb (project a =? project b)%string then
    if string_lt (project a) (project b) then -1 else 1
  else if negb (Bool.eqb (isUnitId a) (isUnitId b)) then
    if isUnitId a then 1 else -1
  else
    if string_lt (getHash a) (getHash b) then -1 else 1.

(** *** Parsing *)

Definition parse (netIdString : string) : result NetId :=
  match match_anchored 5 NETID_REGEX netIdString with
  | None => Err (MalformedNetId netIdString)
  | Some components =>
    CBusNetId (component 1 components)
              (value_of_component (component 2 components))
              (value_of_component (component 3 components))
              (value_of_component (component 4 components))
              (value_of_component (component 5 components))
  end.

(** * Notions of the specification *)

(** ** Identifiers the constructor can return *)

Definition in_byte (v : option Z) : Prop :=
  forall z, v = Some z -> 0 <= z <= 255.

Record well_formed (x : NetId) : Prop := {
  wf_project : validatedProjectName (project x) = Ok (project x);
  wf_network : in_byte (network x);
  wf_application : in_byte (application x);
  wf_group : in_byte (group x);
  wf_unitAddress : in_byte (unitAddress x);
  wf_channel : forall z, channel x = Some z -> 0 <= z <= 7;
  wf_group_application : defined (group x) = true -> defined (application x) = true;
  wf_application_network : defined (application x) = true -> defined (network x) = true;
  wf_unit_network : defined (unitAddress x) = true -> defined (network x) = true;
  wf_unit_branch : defined (unitAddress x) = true ->
                   application x = None /\ group x = None
}.

(** ** Fingerprints *)

(** The fingerprints as the specification writes them, over unbounded
    integers. *)
Definition unit_fingerprint (network unitAddress : Z) : Z :=
  Z.lor (Z.lor (Z.shiftl 2 24) (Z.shiftl network 16)) unitAddress.

Definition group_fingerprint (network application group : Z) : Z :=
  Z.lor (Z.lor (Z.lor (Z.shiftl 1 24) (Z.shiftl network 16))
               (Z.shiftl application 8)) group.

Definition or_zero (v : option Z) : Z :=
  match v with
  | Some z => z
  | None => 0
  end.

(** ** Kinds *)

(** The five classification predicates of an identifier, and how many of
    them hold. *)
Definition kind_predicates (x : NetId) : list bool :=
  [isProjectId x; isNetworkId x; isApplicationId x; isGroupId x; isUnitId x].

Definition count_true (l : list bool) : nat :=
  List.length (filter (fun b => b) l).

(** A channel is present when the field is truthy, as [toString] and
    [isGroupId] test it. *)
Definition has_channel (x : NetId) : bool := truthy_field (channel x).

(** ** Order on strings *)

(** Lexicographic order on strings, as the specification means it: code
    units are compared from the left, and a proper prefix comes first. *)
Inductive lex_lt : string -> string -> Prop :=
| lex_prefix c b : lex_lt "" (String c b)
| lex_head x y a b :
    (nat_of_ascii x < nat_of_ascii y)%nat -> lex_lt (String x a) (String y b)
| lex_tail x a b : lex_lt a b -> lex_lt (String x a) (String x b).

(** ** The language of a pattern *)

(** Every character of [s] is in the class. *)
Fixpoint all_in_class (cls : char_class) (s : string) : bool :=
  match s with
  | EmptyString => true
  | String c s' => in_class cls c && all_in_class cls s'
  end.

Definition within (hi : option nat) (n : nat) : Prop :=
  match hi with
  | Some h => (n <= h)%nat
  | None => True
  end.

(** The strings a pattern denotes, read as a grammar: capturing groups do
    not change the language. *)
Inductive matches : regex -> string -> Prop :=
| M_Chr c : matches (Chr c) (String c "")
| M_Rep lo hi cls s :
    all_in_class cls s = true ->
    (lo <= String.length s)%nat -> within hi (String.length s) ->
    matches (Rep lo hi cls) s
| M_Seq r1 r2 s1 s2 :
    matches r1 s1 -> matches r2 s2 -> matches (Seq r1 r2) (s1 ++ s2)
| M_Alt_l r1 r2 s : matches r1 s -> matches (Alt r1 r2) s
| M_Alt_r r1 r2 s : matches r2 s -> matches (Alt r1 r2) s
| M_Opt_none r : matches (Opt r) ""
| M_Opt_some r s : matches r s -> matches (Opt r) s
| M_Grp i r s : matches r s -> matches (Grp i r) s.

(** A continuation accepts a suffix when it succeeds on it whatever the
    captures. *)
Definition accepts (k : continuation) (s : string) : Prop :=
  forall caps, k s caps <> None.

(** A counted quantifier is written with its minimum below its maximum:
    ECMAScript refuses any other at parse time. *)
Fixpoint well_quantified (r : regex) : bool :=
  match r with
  | Chr _ => true
  | Rep lo hi _ =>
    match hi with
    | Some h => (lo <=? h)%nat
    | None => true
    end
  | Seq r1 r2 | Alt r1 r2 => well_quantified r1 && well_quantified r2
  | Opt r' | Grp _ r' => well_quantified r'
  end.

(** ** Grammars of identifiers *)

(** The tokens of the grammar of section 4.2. *)
Definition project_token : regex := Rep 1 (Some 8%nat) word.
Definition number_token : regex := Rep 1 (Some 3%nat) digit.
Definition appOrUnit_token : regex := (Chr "p" <|> number_token)%re.

(** The hierarchy after the two slashes:
    [project ("/" network ("/" appOrUnit ("/" group)?)?)?] *)
Definition hierarchy : regex :=
  (project_token ;;
   Opt (Chr "/" ;; number_token ;;
        Opt (Chr "/" ;; appOrUnit_token ;;
             Opt (Chr "/" ;; number_token))))%re.

(** The canonical grammar as the specification writes it: the hierarchy,
    then [("/" channel)?]. *)
Definition canonical_grammar : regex :=
  (Chr "/" ;; Chr "/" ;; hierarchy ;; Opt (Chr "/" ;; number_token))%re.

(** The canonical grammar in which the digits after the last slash are
    optional, so that a text may end in a bare slash:
    [hierarchy ("/" channel?)?] *)
Definition trailing_slash_grammar : regex :=
  (Chr "/" ;; Chr "/" ;; hierarchy ;; Opt (Chr "/" ;; Opt number_token))%re.

(** A hierarchy directly followed by digits, with no slash between them. *)
Definition glued_digits : regex :=
  (Chr "/" ;; Chr "/" ;; hierarchy ;; number_token)%re.

(** The pattern of [parse] written with the tokens above: the hierarchy,
    then ["/"?] and [(\d{1,3})?]. *)
Definition pattern_grammar : regex :=
  (Chr "/" ;; Chr "/" ;; hierarchy ;; Opt (Chr "/") ;; Opt number_token)%re.

(** A pattern without its capturing groups. *)
Fixpoint erase_groups (r : regex) : regex :=
  match r with
  | Chr c => Chr c
  | Rep lo hi cls => Rep lo hi cls
  | Seq r1 r2 => Seq (erase_groups r1) (erase_groups r2)
  | Alt r1 r2 => Alt (erase_groups r1) (erase_groups r2)
  | Opt r' => Opt (erase_groups r')
  | Grp _ r' => erase_groups r'
  end.

(** ** Tokens *)

(** No further character of the class follows. *)
Definition stops (cls : char_class) (s : string) : bool :=
  match s with
  | EmptyString => true
  | String c _ => negb (in_class cls c)
  end.

(** A token: between [lo] and [hi] characters of a class. *)
Definition token (cls : char_class) (lo hi : nat) (s : string) : Prop :=
  all_in_class cls s = true
  /\ (lo <= String.length s)%nat /\ (String.length s <= hi)%nat.

(** What the round trip needs of the decimal text of a field value. *)
Definition byte_text_ok (n : Z) : bool :=
  all_in_class digit (decimal n)
  && (1 <=? String.length (decimal n))%nat
  && (String.length (decimal n) <=? 3)%nat
  && match integerise (Str (decimal n)) with
     | Some z => z =? n
     | None => false
     end.

(** ** Project names *)

(** ["CMD"] followed by one digit or more. *)
Definition cmd_number (name : string) : Prop :=
  exists d, name = "CMD" ++ d /\ d <> "" /\ all_in_class digit d = true.

(** An uppercase letter. *)
Definition upper : char_class := [("A", "Z")]%char.

Fixpoint some_in_class (cls : char_class) (s : string) : bool :=
  match s with
  | EmptyString => false
  | String c s' => in_class cls c || some_in_class cls s'
  end.

(** The rules of a project name in the words of section 3 of the
    specification: never a reserved word, never [CMD] followed by digits,
    never purely numeric, and made of one to eight characters among
    uppercase letters, digits and the underscore.  The specification
    names no reserved word; they are those of [cgateReservedWords]. *)
Definition reserved_word (name : string) : bool :=
  existsb (String.eqb name) cgateReservedWords.

(** [CMD] followed by one digit or more, as a test. *)
Definition cmd_digits (name : string) : bool :=
  match name with
  | String "C" (String "M" (String "D" d)) =>
    negb (d =? "")%string && all_in_class digit d
  | _ => false
  end.

(** Purely numeric: one digit or more, and nothing else. *)
Definition purely_numeric (name : string) : bool :=
  negb (name =? "")%string && all_in_class digit name.

(** One to eight characters among uppercase letters, digits and the
    underscore. *)
Definition well_formatted (name : string) : bool :=
  all_in_class word name
  && (1 <=? String.length name)%nat && (String.length name <=? 8)%nat.

(** A name that breaks one of the four rules. *)
Definition invalid_name (name : string) : bool :=
  reserved_word name || cmd_digits name || purely_numeric name
  || negb (well_formatted name).

(** A name of at most eight digits and underscores that has an
    underscore: made of the characters of a number, yet not purely
    numeric. *)
Definition underscored_numeral (name : string) : bool :=
  all_in_class digit_or_underscore name
  && negb (all_in_class digit name)
  && (String.length name <=? 8)%nat.

(** ** Rules of construction *)

(** The error kinds of the specification. *)
Inductive category : Type :=
| CatMissingProject
| CatInvalidProjectName
| CatOutOfRange
| CatMissingUnitAddress
| CatInvalidCombination
| CatMalformedNetId.

Definition category_of (e : error) : category :=
  match e with
  | MissingProject => CatMissingProject
  | InvalidProjectName _ _ => CatInvalidProjectName
  | OutOfRange _ _ => CatOutOfRange
  | MissingUnitAddress => CatMissingUnitAddress
  | InvalidCombination _ => CatInvalidCombination
  | MalformedNetId _ => CatMalformedNetId
  end.

(** The order in which section 4.1 of the specification lists the rules
    of construction. *)
Definition validation_order : list category :=
  [CatMissingProject; CatInvalidProjectName; CatOutOfRange;
   CatMissingUnitAddress; CatInvalidCombination].

Section Rules.

Variable arg_project : option string.
Variables arg_network arg_param3 arg_param4 arg_param5 : value.

(** The fields the arguments ask for, after coercion: the third
    argument selects the unit branch, the fourth is the group or the
    unit address, a falsy fifth argument is no channel. *)
Definition requested_network : option Z := integerise arg_network.
Definition unit_branch : bool := is_p arg_param3.
Definition requested_application : option Z :=
  if unit_branch then None else integerise arg_param3.
Definition requested_group : option Z :=
  if unit_branch then None else integerise arg_param4.
Definition requested_unitAddress : option Z :=
  if unit_branch then integerise arg_param4 else None.
Definition requested_channel : option Z :=
  if truthy arg_param5 then integerise arg_param5 else None.

(** network, application, group and unitAddress lie in 0..255. *)
Definition outside_byte (v : option Z) : bool :=
  match v with
  | Some z => negb ((0 <=? z) && (z <=? 255))
  | None => false
  end.

(** A channel lies in 1..7; a zero channel counts as absent. *)
Definition outside_channel (v : option Z) : bool :=
  match v with
  | Some z => negb (z =? 0) && negb ((1 <=? z) && (z <=? 7))
  | None => false
  end.

(** A channel without a group: section 3 allows a channel only alongside
    a group. *)
Definition channel_alone : bool :=
  truthy_field requested_channel && negb (defined requested_group).

(** Whether the arguments violate a rule of the given kind, each rule in
    the words of sections 3 and 4.1 of the specification. *)
Definition violated (c : category) : bool :=
  match c with
  | CatMissingProject =>
    match arg_project with None => true | Some _ => false end
  | CatInvalidProjectName =>
    match arg_project with
    | Some name => invalid_name name
    | None => false
    end
  | CatOutOfRange =>
    outside_byte requested_network || outside_byte requested_application
    || outside_byte requested_group || outside_byte requested_unitAddress
    || outside_channel requested_channel
  | CatMissingUnitAddress =>
    unit_branch && negb (defined requested_unitAddress)
  | CatInvalidCombination =>
    (defined requested_group && negb (defined requested_application))
    || (defined requested_application && negb (defined requested_network))
    || (defined requested_unitAddress && negb (defined requested_network))
    || channel_alone
  | CatMalformedNetId => false
  end.

(** The earliest violated kind in the order of the specification. *)
Definition first_violated : option category := find violated validation_order.

End Rules.

(** ** Fields as arguments *)

(** A field handed back to the constructor: a number or [undefined]. *)
Definition value_of_field (v : option Z) : value :=
  match v with
  | Some z => Num z
  | None => Undefined
  end.

(** The third and fourth arguments that select the branch of an
    identifier: the marker [`p`] and the unit address, or the application
    and the group. *)
Definition branch_arguments (x : NetId) : value * value :=
  match unitAddress x with
  | Some u => (Str "p", Num u)
  | None => (value_of_field (application x), value_of_field (group x))
  end.

(** The characters of a hexadecimal rendering. *)
Definition hex_char : char_class := [("0", "9"); ("a", "f"); ("-", "-")]%char.

(** ** Hashes as numbers *)

(** The hash of a well-formed identifier, by kind, as a number. *)
Inductive hash_view (x : NetId) : Prop :=
| hash_project :
    network x = None -> application x = None -> group x = None ->
    unitAddress x = None -> getHash x = project x -> hash_view x
| hash_unit n u :
    network x = Some n -> unitAddress x = Some u ->
    application x = None -> group x = None ->
    0 <= n <= 255 -> 0 <= u <= 255 ->
    getHash x = hexadecimal (33554432 + n * 65536 + u) -> hash_view x
| hash_group n :
    network x = Some n -> unitAddress x = None ->
    0 <= n <= 255 ->
    0 <= or_zero (application x) <= 255 -> 0 <= or_zero (group x) <= 255 ->
    (application x = None -> group x = None) ->
    getHash x = hexadecimal (16777216 + n * 65536
                             + or_zero (application x) * 256
                             + or_zero (group x)) ->
    hash_view x.

(** The value of a digit sequence read from the left, after [acc]. *)
Fixpoint hex_value (d : Hexadecimal.uint) (acc : Z) : Z :=
  match d with
  | Hexadecimal.Nil => acc
  | Hexadecimal.D0 l => hex_value l (16 * acc)
  | Hexadecimal.D1 l => hex_value l (16 * acc + 1)
  | Hexadecimal.D2 l => hex_value l (16 * acc + 2)
  | Hexadecimal.D3 l => hex_value l (16 * acc + 3)
  | Hexadecimal.D4 l => hex_value l (16 * acc + 4)
  | Hexadecimal.D5 l => hex_value l (16 * acc + 5)
  | Hexadecimal.D6 l => hex_value l (16 * acc + 6)
  | Hexadecimal.D7 l => hex_value l (16 * acc + 7)
  | Hexadecimal.D8 l => hex_value l (16 * acc + 8)
  | Hexadecimal.D9 l => hex_value l (16 * acc + 9)
  | Hexadecimal.Da l => hex_value l (16 * acc + 10)
  | Hexadecimal.Db l => hex_value l (16 * acc + 11)
  | Hexadecimal.Dc l => hex_value l (16 * acc + 12)
  | Hexadecimal.Dd l => hex_value l (16 * acc + 13)
  | Hexadecimal.De l => hex_value l (16 * acc + 14)
  | Hexadecimal.Df l => hex_value l (16 * acc + 15)
  end.

(** The address of an identifier as the tuple that orders it: network,
    application, group and unit address, an absent one counting as 0. *)
Definition address_before (a b : NetId) : Prop :=
  or_zero (network a) < or_zero (network b)
  \/ (or_zero (network a) = or_zero (network b)
      /\ (or_zero (application a) < or_zero (application b)
          \/ (or_zero (application a) = or_zero (application b)
              /\ (or_zero (group a) < or_zero (group b)
                  \/ (or_zero (group a) = or_zero (group b)
                      /\ or_zero (unitAddress a) < or_zero (unitAddress b)))))).

(** ** The components of a match *)

(** How a pattern updates the captures along one way of matching a
    string. *)
Inductive captures_of : regex -> string -> captures -> captures -> Prop :=
| C_Chr c caps : captures_of (Chr c) (String c "") caps caps
| C_Rep lo hi cls s caps :
    all_in_class cls s = true ->
    (lo <= String.length s)%nat -> within hi (String.length s) ->
    captures_of (Rep lo hi cls) s caps caps
| C_Seq r1 r2 s1 s2 c0 c1 c2 :
    captures_of r1 s1 c0 c1 -> captures_of r2 s2 c1 c2 ->
    captures_of (Seq r1 r2) (s1 ++ s2) c0 c2
| C_Alt_l r1 r2 s c0 c1 : captures_of r1 s c0 c1 -> captures_of (Alt r1 r2) s c0 c1
| C_Alt_r r1 r2 s c0 c1 : captures_of r2 s c0 c1 -> captures_of (Alt r1 r2) s c0 c1
| C_Opt_none r caps : captures_of (Opt r) "" caps caps
| C_Opt_some r s c0 c1 : captures_of r s c0 c1 -> captures_of (Opt r) s c0 c1
| C_Grp i r s c0 c1 :
    captures_of r s c0 c1 -> captures_of (Grp i r) s c0 (set_capture i s c1).

(** The components of a match of [NETID_REGEX] are nested as the
    hierarchy is: a project always, a third component only after a
    second, a fourth only after a third. *)
Record nested_components (m : captures) : Prop := {
  nc_project : exists P, component 1 m = Some P /\ token word 1 8 P;
  nc_second : forall N, component 2 m = Some N -> token digit 1 3 N;
  nc_third : forall A, component 3 m = Some A ->
                       (A = "p" \/ token digit 1 3 A) /\ component 2 m <> None;
  nc_fourth : forall G, component 4 m = Some G ->
                        token digit 1 3 G /\ component 3 m <> None;
  nc_fifth : forall C, component 5 m = Some C -> token digit 1 3 C
}.

(** * Properties *)

(** ** The examples of section 8 of the specification *)

Example construct_project :
  CBusNetId (Some "ABC") Undefined Undefined Undefined Undefined
  = Ok (mkNetId "ABC" None None None None None)
  /\ toString (mkNetId "ABC" None None None None None) = "//ABC"
  /\ kind_predicates (mkNetId "ABC" None None None None None)
     = [true; false; false; false; false].
Proof.
  repeat split; reflexivity.
Qed.

Example parse_network :
  parse "//SHAC/254" = Ok (mkNetId "SHAC" (Some 254) None None None None)
  /\ toString (mkNetId "SHAC" (Some 254) None None None None) = "//SHAC/254".
Proof.
  split; reflexivity.
Qed.

Example parse_group :
  parse "//SHAC/254/56/191"
  = Ok (mkNetId "SHAC" (Some 254) (Some 56) (Some 191) None None)
  /\ getHash (mkNetId "SHAC" (Some 254) (Some 56) (Some 191) None None)
     = "1fe38bf".
Proof.
  split; reflexivity.
Qed.

Example parse_unit :
  parse "//SHAC/254/p/22"
  = Ok (mkNetId "SHAC" (Some 254) None None (Some 22) None)
  /\ toString (mkNetId "SHAC" (Some 254) None None (Some 22) None)
     = "//SHAC/254/p/22".
Proof.
  split; reflexivity.
Qed.

Example construct_reserved_word :
  CBusNetId (Some "CBUS") Undefined Undefined Undefined Undefined
  = Err (InvalidProjectName ReservedWord "CBUS").
Proof.
  reflexivity.
Qed.

Example construct_without_project :
  CBusNetId None (Num 254) (Num 56) Undefined Undefined = Err MissingProject.
Proof.
  reflexivity.
Qed.

Example construct_application_without_network :
  CBusNetId (Some "SHAC") Undefined (Num 56) Undefined Undefined
  = Err (InvalidCombination ApplicationNeedsNetwork).
Proof.
  reflexivity.
Qed.

Example construct_channel_out_of_range :
  CBusNetId (Some "SHAC") (Num 254) (Num 56) (Num 191) (Num 8)
  = Err (OutOfRange "channel" 8).
Proof.
  reflexivity.
Qed.

(** ** Strings *)

Section Strings.

Lemma append_assoc (a b c : string) : (a ++ b) ++ c = a ++ (b ++ c).
Proof.
  induction a as [|x a IH]; cbn; [reflexivity | now rewrite IH].
Qed.

Lemma append_nil_r (a : string) : a ++ "" = a.
Proof.
  induction a as [|x a IH]; cbn; [reflexivity | now rewrite IH].
Qed.

Lemma length_append (a b : string) :
  String.length (a ++ b) = (String.length a + String.length b)%nat.
Proof.
  induction a as [|x a IH]; cbn; [reflexivity | now rewrite IH].
Qed.

End Strings.

(** ** What a successful construction guarantees *)

Lemma validatedProjectName_Ok name s :
  validatedProjectName name = Ok s -> s = name.
Proof.
  unfold validatedProjectName.
  repeat match goal with |- context [if ?b then _ else _] => destruct b end;
    congruence.
Qed.

Lemma validatedNumber_Ok v name o :
  validatedNumber v name = Ok o -> o = integerise v /\ in_byte o.
Proof.
  unfold validatedNumber, in_byte.
  destruct (integerise v) as [z|].
  - destruct ((z <? 0) || (z >? 255)) eqn:E; [discriminate|].
    intros H; injection H as <-. split; [reflexivity|].
    intros z' [= <-]. apply orb_false_iff in E. lia.
  - intros H; injection H as <-. split; [reflexivity | discriminate].
Qed.

Lemma validatedNumber_Err v name e :
  validatedNumber v name = Err e ->
  exists z, integerise v = Some z /\ (z < 0 \/ 255 < z) /\ e = OutOfRange name z.
Proof.
  unfold validatedNumber.
  destruct (integerise v) as [z|]; [|discriminate].
  destruct ((z <? 0) || (z >? 255)) eqn:E; [|discriminate].
  intros [= <-]. exists z. apply orb_true_iff in E. repeat split; lia.
Qed.

Lemma validatedChannelNumber_Ok v o :
  validatedChannelNumber v = Ok o ->
  o = integerise v /\ forall z, o = Some z -> 0 <= z <= 7.
Proof.
  unfold validatedChannelNumber.
  destruct (integerise v) as [z|].
  - destruct (negb (z =? 0) && ((z <=? 0) || (z >=? 8))) eqn:E; [discriminate|].
    intros H; injection H as <-. split; [reflexivity|].
    intros z' [= <-].
    apply andb_false_iff in E. rewrite negb_false_iff, orb_false_iff in E. lia.
  - intros H; injection H as <-. split; [reflexivity | discriminate].
Qed.

Lemma validatedChannelNumber_Err v e :
  validatedChannelNumber v = Err e ->
  exists z, integerise v = Some z /\ (z < 0 \/ 8 <= z) /\ e = OutOfRange "channel" z.
Proof.
  unfold validatedChannelNumber.
  destruct (integerise v) as [z|]; [|discriminate].
  destruct (negb (z =? 0) && ((z <=? 0) || (z >=? 8))) eqn:E; [|discriminate].
  intros [= <-]. exists z.
  apply andb_true_iff in E. rewrite negb_true_iff, orb_true_iff in E.
  repeat split; lia.
Qed.

(** The fields of a constructed identifier, read off the arguments. *)
Lemma CBusNetId_Ok p n p3 p4 p5 x :
  CBusNetId p n p3 p4 p5 = Ok x ->
  p = Some (project x)
  /\ validatedProjectName (project x) = Ok (project x)
  /\ channel x = (if truthy p5 then integerise p5 else None)
  /\ (forall z, channel x = Some z -> 0 <= z <= 7)
  /\ network x = integerise n /\ in_byte (network x)
  /\ (if is_p p3
      then unitAddress x = integerise p4 /\ in_byte (unitAddress x)
           /\ defined (unitAddress x) = true /\ defined (network x) = true
           /\ application x = None /\ group x = None
      else application x = integerise p3 /\ in_byte (application x)
           /\ group x = integerise p4 /\ in_byte (group x)
           /\ unitAddress x = None
           /\ (defined (group x) = true -> defined (application x) = true)
           /\ (defined (application x) = true -> defined (network x) = true)).
Proof.
  unfold CBusNetId.
  destruct p as [name|]; [|discriminate].
  destruct (validatedProjectName name) as [pr|] eqn:Hp; [|discriminate].
  apply validatedProjectName_Ok in Hp as Hpr. subst pr. cbn [bind].
  destruct (if truthy p5 then validatedChannelNumber p5 else Ok None)
    as [ch|] eqn:Hc; [|discriminate]. cbn [bind].
  assert (Hch : ch = (if truthy p5 then integerise p5 else None)
                /\ forall z, ch = Some z -> 0 <= z <= 7).
  { destruct (truthy p5).
    - now apply validatedChannelNumber_Ok.
    - injection Hc as <-. split; [reflexivity | discriminate]. }
  destruct Hch as [Hch1 Hch2].
  destruct (validatedNumber n "network") as [nw|] eqn:Hn; [|discriminate].
  apply validatedNumber_Ok in Hn as [Hn1 Hn2]. cbn [bind].
  destruct (is_p p3).
  - destruct (validatedNumber p4 "unitAddress") as [ua|] eqn:Hu; [|discriminate].
    apply validatedNumber_Ok in Hu as [Hu1 Hu2]. cbn [bind].
    destruct ua as [u|]; [|discriminate]. cbn.
    destruct nw as [nv|]; cbn; [|discriminate].
    intros [= <-]. cbn. repeat apply conj; auto.
  - destruct (validatedNumber p3 "application") as [ap|] eqn:Ha; [|discriminate].
    apply validatedNumber_Ok in Ha as [Ha1 Ha2]. cbn [bind].
    destruct (validatedNumber p4 "group") as [gr|] eqn:Hg; [|discriminate].
    apply validatedNumber_Ok in Hg as [Hg1 Hg2]. cbn [bind].
    destruct gr as [g|], ap as [a|], nw as [nv|]; cbn; try discriminate;
      intros [= <-]; cbn; repeat apply conj; auto; discriminate.
Qed.

Lemma CBusNetId_well_formed p n p3 p4 p5 x :
  CBusNetId p n p3 p4 p5 = Ok x -> well_formed x.
Proof.
  intros H. apply CBusNetId_Ok in H.
  destruct H as (_ & Hp & _ & Hc & _ & Hn & Hb).
  destruct (is_p p3).
  - destruct Hb as (_ & Hu & Hd & Hnd & Ha & Hg).
    constructor; auto; rewrite ?Ha, ?Hg; try discriminate.
  - destruct Hb as (_ & Ha & _ & Hg & Hu & Hga & Han).
    constructor; auto; rewrite ?Hu; try discriminate.
Qed.

Lemma validatedProjectName_Err name e :
  validatedProjectName name = Err e -> category_of e = CatInvalidProjectName.
Proof.
  unfold validatedProjectName.
  repeat match goal with |- context [if ?b then _ else _] => destruct b end;
    intros [= <-]; reflexivity.
Qed.

Lemma validatedNumber_cases v name :
  match validatedNumber v name with
  | Ok o => o = integerise v /\ outside_byte (integerise v) = false
  | Err e => category_of e = CatOutOfRange /\ outside_byte (integerise v) = true
  end.
Proof.
  unfold validatedNumber, outside_byte.
  destruct (integerise v) as [z|]; [|auto].
  destruct ((z <? 0) || (z >? 255)) eqn:E; cbn; (split; [reflexivity|]).
  - apply orb_true_iff in E. apply negb_true_iff, andb_false_iff. lia.
  - apply orb_false_iff in E. apply negb_false_iff, andb_true_iff. lia.
Qed.

Lemma validatedChannelNumber_cases v :
  match validatedChannelNumber v with
  | Ok o => o = integerise v /\ outside_channel (integerise v) = false
  | Err e => category_of e = CatOutOfRange
             /\ outside_channel (integerise v) = true
  end.
Proof.
  unfold validatedChannelNumber, outside_channel.
  destruct (integerise v) as [z|]; [|auto].
  destruct (z =? 0) eqn:Z0; cbn [negb andb]; [auto|].
  destruct ((z <=? 0) || (z >=? 8)) eqn:E; cbn; (split; [reflexivity|]).
  - apply orb_true_iff in E. apply negb_true_iff, andb_false_iff. lia.
  - apply orb_false_iff in E. apply negb_false_iff, andb_true_iff. lia.
Qed.

(** ** 32-bit arithmetic on validated fields *)

Section Int32.

Lemma ToInt32_small z : - 2 ^ 31 <= z < 2 ^ 31 -> ToInt32 z = z.
Proof.
  intros H. unfold ToInt32.
  change (2 ^ 31) with 2147483648 in *. change (2 ^ 32) with 4294967296.
  rewrite Z.mod_small; lia.
Qed.

Lemma lor_below k a b :
  0 <= k -> 0 <= a < 2 ^ k -> 0 <= b < 2 ^ k -> 0 <= Z.lor a b < 2 ^ k.
Proof.
  intros Hk Ha Hb. split; [apply Z.lor_nonneg; lia|].
  destruct (Z.eq_dec a 0) as [->|Ha0]; [rewrite Z.lor_0_l; lia|].
  destruct (Z.eq_dec b 0) as [->|Hb0]; [rewrite Z.lor_0_r; lia|].
  assert (0 < Z.lor a b).
  { assert (0 <= Z.lor a b) by (apply Z.lor_nonneg; lia).
    assert (Z.lor a b <> 0) by (rewrite Z.lor_eq_0_iff; tauto). lia. }
  apply Z.log2_lt_pow2; [assumption|].
  rewrite Z.log2_lor by lia.
  apply Z.max_lub_lt; apply Z.log2_lt_pow2; lia.
Qed.

Lemma shl32_byte a n :
  0 <= a <= 255 -> (n = 8 \/ n = 16) ->
  shl32 (int32_of_field (Some a)) n = Z.shiftl a n
  /\ 0 <= Z.shiftl a n < 2 ^ 24.
Proof.
  intros Ha Hn. unfold shl32, int32_of_field.
  assert (Hp : 2 ^ 31 = 2147483648) by reflexivity.
  rewrite !(ToInt32_small a) by lia.
  assert (Hm : n mod 32 = n) by (destruct Hn; subst; reflexivity).
  rewrite Hm, Z.shiftl_mul_pow2 by lia.
  assert (0 <= a * 2 ^ n < 2 ^ 24)
    by (destruct Hn; subst;
        [change (2 ^ 8) with 256 | change (2 ^ 16) with 65536];
        change (2 ^ 24) with 16777216; lia).
  assert (Hq : 2 ^ 24 = 16777216) by reflexivity.
  rewrite ToInt32_small by lia. auto.
Qed.

Lemma or32_below a b :
  0 <= a < 2 ^ 26 -> 0 <= b < 2 ^ 26 ->
  or32 a b = Z.lor a b /\ 0 <= Z.lor a b < 2 ^ 26.
Proof.
  intros Ha Hb. unfold or32.
  pose proof (lor_below 26 a b ltac:(lia) Ha Hb) as Hl.
  assert (Hp : 2 ^ 31 = 2147483648) by reflexivity.
  assert (Hq : 2 ^ 26 = 67108864) by reflexivity.
  rewrite (ToInt32_small a), (ToInt32_small b), ToInt32_small by lia. auto.
Qed.

End Int32.

Lemma shl32_field v n :
  in_byte v -> (n = 8 \/ n = 16) ->
  shl32 (int32_of_field v) n = Z.shiftl (or_zero v) n
  /\ 0 <= Z.shiftl (or_zero v) n < 2 ^ 24.
Proof.
  intros Hv Hn. destruct v as [a|].
  - apply shl32_byte; [apply Hv; reflexivity | assumption].
  - cbn [or_zero int32_of_field]. rewrite Z.shiftl_0_l.
    destruct Hn; subst; split; (reflexivity || (cbn; lia)).
Qed.

Lemma int32_of_field_byte v :
  in_byte v -> int32_of_field v = or_zero v /\ 0 <= or_zero v < 2 ^ 24.
Proof.
  intros Hv. assert (Hq : 2 ^ 24 = 16777216) by reflexivity.
  assert (Hp : 2 ^ 31 = 2147483648) by reflexivity.
  destruct v as [a|]; cbn [int32_of_field or_zero]; [|lia].
  specialize (Hv a eq_refl). rewrite ToInt32_small; lia.
Qed.

Lemma getHash_unit x :
  well_formed x -> isProjectId x = false -> isUnitId x = true ->
  getHash x =
  hexadecimal (unit_fingerprint (or_zero (network x)) (or_zero (unitAddress x))).
Proof.
  intros W Hp Hu. unfold getHash. rewrite Hp, Hu. f_equal.
  unfold unit_fingerprint.
  destruct (shl32_field (network x) 16 (wf_network x W) (or_intror eq_refl))
    as [-> Hn].
  destruct (int32_of_field_byte (unitAddress x) (wf_unitAddress x W))
    as [-> Hb].
  change (shl32 2 24) with (Z.shiftl 2 24).
  assert (H2 : 0 <= Z.shiftl 2 24 < 2 ^ 26) by (cbn; lia).
  assert (Hq : 2 ^ 24 = 16777216) by reflexivity.
  assert (Hq' : 2 ^ 26 = 67108864) by reflexivity.
  destruct (or32_below (Z.shiftl 2 24) (Z.shiftl (or_zero (network x)) 16))
    as [-> Hl]; [lia | lia |].
  destruct (or32_below
              (Z.lor (Z.shiftl 2 24) (Z.shiftl (or_zero (network x)) 16))
              (or_zero (unitAddress x))) as [-> _]; [lia | lia |].
  reflexivity.
Qed.

Lemma getHash_group x :
  well_formed x -> isProjectId x = false -> isUnitId x = false ->
  getHash x =
  hexadecimal (group_fingerprint (or_zero (network x))
                                 (or_zero (application x))
                                 (or_zero (group x))).
Proof.
  intros W Hp Hu. unfold getHash. rewrite Hp, Hu. f_equal.
  unfold group_fingerprint.
  destruct (shl32_field (network x) 16 (wf_network x W) (or_intror eq_refl))
    as [-> Hn].
  destruct (shl32_field (application x) 8 (wf_application x W) (or_introl eq_refl))
    as [-> Ha].
  destruct (int32_of_field_byte (group x) (wf_group x W)) as [-> Hg].
  change (shl32 1 24) with (Z.shiftl 1 24).
  assert (H1 : 0 <= Z.shiftl 1 24 < 2 ^ 26) by (cbn; lia).
  assert (Hq : 2 ^ 24 = 16777216) by reflexivity.
  assert (Hq' : 2 ^ 26 = 67108864) by reflexivity.
  destruct (or32_below (Z.shiftl 1 24) (Z.shiftl (or_zero (network x)) 16))
    as [-> Hl]; [lia | lia |].
  destruct (or32_below
              (Z.lor (Z.shiftl 1 24) (Z.shiftl (or_zero (network x)) 16))
              (Z.shiftl (or_zero (application x)) 8)) as [-> Hl2]; [lia | lia |].
  destruct (or32_below
              (Z.lor (Z.lor (Z.shiftl 1 24) (Z.shiftl (or_zero (network x)) 16))
                     (Z.shiftl (or_zero (application x)) 8))
              (or_zero (group x))) as [-> _]; [lia | lia |].
  reflexivity.
Qed.

(** ** Hashing, equality and classification *)

Lemma defined_Some (v : option Z) :
  defined v = true -> exists z, v = Some z.
Proof.
  destruct v as [z|]; [eauto | discriminate].
Qed.

(** C6: for every identifier the constructor returns, [getHash] is the
    project string on a Project-kind, the lowercase hexadecimal rendering
    of [(2 << 24) | (network << 16) | unitAddress] on a Unit-kind, and of
    [(1 << 24) | (network << 16) | (application << 8) | group] on a
    Network-, Application- or Group-kind (with or without a channel), an
    absent application or group counting as 0. *)
Theorem getHash_fingerprint p n p3 p4 p5 x :
  CBusNetId p n p3 p4 p5 = Ok x ->
  (isProjectId x = true -> getHash x = project x)
  /\ (isUnitId x = true ->
      exists nw ua, network x = Some nw /\ unitAddress x = Some ua
                    /\ getHash x = hexadecimal (unit_fingerprint nw ua))
  /\ (isNetworkId x = true \/ isApplicationId x = true
      \/ defined (group x) = true ->
      exists nw, network x = Some nw
                 /\ getHash x =
                    hexadecimal (group_fingerprint nw (or_zero (application x))
                                                   (or_zero (group x)))).
Proof.
  intros H. apply CBusNetId_well_formed in H as W.
  split; [|split].
  - intros Hp. unfold getHash. now rewrite Hp.
  - intros Hu. unfold isUnitId in Hu.
    destruct (defined_Some _ Hu) as [ua Hua].
    destruct (defined_Some _ (wf_unit_network x W Hu)) as [nw Hnw].
    exists nw, ua. repeat apply conj; try assumption.
    rewrite getHash_unit; try assumption.
    + now rewrite Hnw, Hua.
    + unfold isProjectId. now rewrite Hnw.
  - intros Hk.
    assert (Hn : defined (network x) = true /\ defined (unitAddress x) = false).
    { destruct Hk as [Hk | [Hk | Hk]].
      - unfold isNetworkId in Hk.
        apply andb_true_iff in Hk as [Hk Hu].
        apply andb_true_iff in Hk as [Hk _].
        now apply negb_true_iff in Hu.
      - unfold isApplicationId in Hk. apply andb_true_iff in Hk as [Hk _].
        split; [now apply (wf_application_network x W)|].
        destruct (defined (unitAddress x)) eqn:Hu; [|reflexivity].
        destruct (wf_unit_branch x W Hu) as [Ha _].
        rewrite Ha in Hk. discriminate.
      - pose proof (wf_group_application x W Hk) as Ha.
        split; [now apply (wf_application_network x W)|].
        destruct (defined (unitAddress x)) eqn:Hu; [|reflexivity].
        destruct (wf_unit_branch x W Hu) as [_ Hg].
        rewrite Hg in Hk. discriminate. }
    destruct Hn as [Hn Hu].
    destruct (defined_Some _ Hn) as [nw Hnw]. exists nw.
    split; [assumption|].
    rewrite getHash_group; try assumption.
    + now rewrite Hnw.
    + unfold isProjectId. now rewrite Hnw.
Qed.

Lemma getHash_fingerprint_witness :
  exists x, CBusNetId (Some "SHAC") (Num 254) (Num 56) (Num 191) Undefined = Ok x
            /\ getHash x = hexadecimal (group_fingerprint 254 56 191).
Proof.
  eexists. split; [reflexivity|].
  destruct (getHash_fingerprint (Some "SHAC") (Num 254) (Num 56) (Num 191)
                                Undefined _ eq_refl) as (_ & _ & H).
  destruct (H (or_intror (or_intror eq_refl))) as (nw & Hnw & Hh).
  injection Hnw as <-. exact Hh.
Defined.

(** C10: [isSameNetwork] is a total function of two identifiers of any
    kind; it returns true exactly when the two network fields are strictly
    equal, so two Project-kind identifiers, whose networks are both
    absent, are on the same network whatever their projects. *)
Theorem isSameNetwork_spec (a b : NetId) :
  (isSameNetwork a b = true <-> network a = network b)
  /\ (isProjectId a = true -> isProjectId b = true -> isSameNetwork a b = true).
Proof.
  unfold isSameNetwork, isProjectId, strict_eq.
  destruct (network a) as [x|], (network b) as [y|]; cbn;
    (split; [split|]); try discriminate; try reflexivity.
  - intros H. apply Z.eqb_eq in H. now subst.
  - intros [= ->]. apply Z.eqb_refl.
Qed.

Lemma isSameNetwork_spec_witness :
  isSameNetwork (mkNetId "SHAC" None None None None None)
                (mkNetId "HOME" None None None None None) = true.
Proof.
  exact (proj2 (isSameNetwork_spec (mkNetId "SHAC" None None None None None)
                                   (mkNetId "HOME" None None None None None))
               eq_refl eq_refl).
Defined.

(** C5: [isEquals] returns true if and only if the two projects are equal
    strings and the two hashes are equal strings; so a bare Network-kind
    identifier equals the Group-kind identifier with application 0 and
    group 0 of the same project and network. *)
Theorem isEquals_spec (a b : NetId) :
  (isEquals a b = true <-> project a = project b /\ getHash a = getHash b)
  /\ (project a = project b -> network a = network b ->
      isNetworkId a = true -> group a = None ->
      application b = Some 0 -> group b = Some 0 -> unitAddress b = None ->
      isEquals a b = true).
Proof.
  assert (E : isEquals a b = true <->
              project a = project b /\ getHash a = getHash b).
  { unfold isEquals.
    destruct (String.eqb_spec (project a) (project b)) as [Hp|Hp]; cbn.
    - rewrite String.eqb_eq. tauto.
    - split; [discriminate | tauto]. }
  split; [exact E|].
  intros Hp Hn Ha Hg Hab Hgb Hub. apply E. split; [assumption|].
  unfold isNetworkId in Ha.
  apply andb_true_iff in Ha as [Ha Hua]. apply andb_true_iff in Ha as [Hna Haa].
  apply negb_true_iff in Hua, Haa.
  unfold getHash, isProjectId, isUnitId.
  rewrite <- Hn, Hna, Hua, Hub, Hab, Hgb, Hg. cbn [negb defined].
  destruct (application a); [discriminate|]. reflexivity.
Qed.

Lemma isEquals_spec_witness :
  isEquals (mkNetId "SHAC" (Some 254) None None None None)
           (mkNetId "SHAC" (Some 254) (Some 0) (Some 0) None None) = true.
Proof.
  exact (proj2 (isEquals_spec (mkNetId "SHAC" (Some 254) None None None None)
                              (mkNetId "SHAC" (Some 254) (Some 0) (Some 0) None None))
               eq_refl eq_refl eq_refl eq_refl eq_refl eq_refl eq_refl).
Defined.

(** C9: on every identifier the constructor returns exactly one of
    [isProjectId], [isNetworkId], [isApplicationId], [isGroupId],
    [isUnitId] is true, except that [isGroupId] is false when a channel
    is present: an identifier with a group and a channel is the only shape
    on which none of the five holds. *)
Theorem exactly_one_kind p n p3 p4 p5 x :
  CBusNetId p n p3 p4 p5 = Ok x ->
  (has_channel x = true -> isGroupId x = false)
  /\ count_true (kind_predicates x) =
     (if defined (group x) && has_channel x then 0 else 1)%nat.
Proof.
  intros H. apply CBusNetId_well_formed in H as W.
  pose proof (wf_group_application x W) as Hga.
  pose proof (wf_application_network x W) as Han.
  pose proof (wf_unit_network x W) as Hun.
  pose proof (wf_unit_branch x W) as Hub.
  unfold has_channel, kind_predicates, count_true, isGroupId, isProjectId,
    isNetworkId, isApplicationId, isUnitId.
  destruct (truthy_field (channel x));
    destruct (network x) as [nw|], (application x) as [ap|],
      (group x) as [gr|], (unitAddress x) as [ua|]; cbn in *;
    try (split; [first [discriminate | reflexivity] | reflexivity]);
    try (specialize (Hga eq_refl); discriminate);
    try (specialize (Han eq_refl); discriminate);
    try (specialize (Hun eq_refl); discriminate);
    try (destruct (Hub eq_refl); discriminate).
Qed.

Lemma exactly_one_kind_witness :
  exists x, CBusNetId (Some "SHAC") (Num 254) (Num 56) (Num 191) (Num 3) = Ok x
            /\ isGroupId x = false
            /\ count_true (kind_predicates x) = 0%nat.
Proof.
  eexists. split; [reflexivity|].
  destruct (exactly_one_kind (Some "SHAC") (Num 254) (Num 56) (Num 191) (Num 3)
                             _ eq_refl) as [Hg Hc].
  split; [exact (Hg eq_refl) | exact Hc].
Defined.

(** C3, as the specification states it, fails: the constructor stores a
    channel on an identifier without a group. *)
Lemma channel_without_group :
  exists x, CBusNetId (Some "SHAC") (Num 254) Undefined Undefined (Num 5) = Ok x
            /\ channel x = Some 5 /\ group x = None.
Proof.
  eexists. split; [reflexivity|]. split; reflexivity.
Qed.

(** C3, amended: every identifier the constructor returns satisfies the
    hierarchy rules the constructor checks: a group is present only
    alongside an application, an application only alongside a network, a
    unit address only alongside a network and without application or
    group.  That a channel comes with a group is not among the rules it
    checks. *)
Theorem constructed_hierarchy p n p3 p4 p5 x :
  CBusNetId p n p3 p4 p5 = Ok x ->
  (defined (group x) = true -> defined (application x) = true)
  /\ (defined (application x) = true -> defined (network x) = true)
  /\ (defined (unitAddress x) = true ->
      defined (network x) = true /\ application x = None /\ group x = None).
Proof.
  intros H. apply CBusNetId_well_formed in H as W.
  repeat apply conj.
  - apply (wf_group_application x W).
  - apply (wf_application_network x W).
  - intros Hu. split; [now apply (wf_unit_network x W)|].
    now apply (wf_unit_branch x W).
Qed.

Lemma constructed_hierarchy_witness :
  exists x, CBusNetId (Some "SHAC") (Num 254) (Num 56) (Num 191) (Num 3) = Ok x
            /\ defined (group x) = true /\ defined (application x) = true
            /\ defined (network x) = true.
Proof.
  eexists. split; [reflexivity|].
  destruct (constructed_hierarchy (Some "SHAC") (Num 254) (Num 56) (Num 191)
                                  (Num 3) _ eq_refl) as (Hg & Ha & _).
  split; [reflexivity|]. split; [exact (Hg eq_refl) | exact (Ha (Hg eq_refl))].
Defined.

(** ** Ordering *)

Lemma ascii_compare_refl x : (x ?= x)%char = Eq.
Proof.
  unfold Ascii.compare. apply N.compare_refl.
Qed.

Lemma string_compare_refl s : (s ?= s)%string = Eq.
Proof.
  induction s as [|x s IH]; cbn; [reflexivity|].
  now rewrite ascii_compare_refl.
Qed.

Lemma string_compare_lex a b : (a ?= b)%string = Lt <-> lex_lt a b.
Proof.
  revert b. induction a as [|x a IH]; intros [|y b]; cbn.
  - split; [discriminate | inversion 1].
  - split; [constructor | reflexivity].
  - split; [discriminate | inversion 1].
  - destruct (x ?= y)%char eqn:E.
    + apply Ascii.compare_eq_iff in E. subst y. rewrite IH.
      split; [apply lex_tail|].
      inversion 1; subst; [lia | assumption].
    + assert (E' : (N_of_ascii x < N_of_ascii y)%N) by exact E.
      split; [|reflexivity]. intros _. apply lex_head.
      unfold nat_of_ascii. lia.
    + split; [discriminate|].
      assert (E' : (N_of_ascii y < N_of_ascii x)%N)
        by (apply N.compare_gt_iff; exact E).
      inversion 1; subst.
      * unfold nat_of_ascii in *. lia.
      * lia.
Qed.

Lemma string_lt_lex a b : string_lt a b = true <-> lex_lt a b.
Proof.
  rewrite <- string_compare_lex. unfold string_lt, String.ltb.
  destruct (a ?= b)%string; split; congruence.
Qed.

Lemma string_lt_irrefl s : string_lt s s = false.
Proof.
  unfold string_lt, String.ltb. now rewrite string_compare_refl.
Qed.

Lemma lex_lt_irrefl s : ~ lex_lt s s.
Proof.
  rewrite <- string_lt_lex, string_lt_irrefl. discriminate.
Qed.

Lemma lex_lt_asym a b : lex_lt a b -> ~ lex_lt b a.
Proof.
  rewrite <- !string_compare_lex, (String.compare_antisym a b).
  destruct (b ?= a)%string; cbn; congruence.
Qed.

Lemma lex_lt_total a b : a <> b -> lex_lt a b \/ lex_lt b a.
Proof.
  intros Hne. rewrite <- !string_compare_lex, (String.compare_antisym a b).
  destruct (b ?= a)%string eqn:E; cbn; auto.
  apply String.compare_eq_iff in E. congruence.
Qed.

Lemma lex_lt_trans a b c : lex_lt a b -> lex_lt b c -> lex_lt a c.
Proof.
  intros Hab. revert c.
  induction Hab as [x b | x y a b Hxy | x a b Hab IH]; intros c Hbc;
    inversion Hbc; subst.
  - constructor.
  - constructor.
  - apply lex_head. lia.
  - now apply lex_head.
  - now apply lex_head.
  - apply lex_tail. now apply IH.
Qed.

(** C8: [compare] decides by three tiers.  When the projects differ, the
    result is the lexicographic order of the projects; when they are equal
    and exactly one identifier is a Unit-kind, the unit sorts after the
    other whatever the hashes; otherwise the result is decided by the
    lexicographic order of the hexadecimal hash strings: -1 when the hash
    of [a] is lexicographically smaller, 1 when it is not. *)
Theorem compare_tiers (a b : NetId) :
  (project a <> project b ->
   (compare a b = -1 <-> lex_lt (project a) (project b))
   /\ (compare a b = 1 <-> lex_lt (project b) (project a)))
  /\ (project a = project b -> isUnitId a = true -> isUnitId b = false ->
      compare a b = 1 /\ compare b a = -1)
  /\ (project a = project b -> isUnitId a = isUnitId b ->
      (compare a b = -1 <-> lex_lt (getHash a) (getHash b))
      /\ (compare a b = 1 <-> ~ lex_lt (getHash a) (getHash b))).
Proof.
  unfold compare. repeat apply conj.
  - intros Hne. apply String.eqb_neq in Hne as E. rewrite E. cbn [negb].
    destruct (string_lt (project a) (project b)) eqn:L.
    + apply string_lt_lex in L.
      split; split; try discriminate; try (intros _; assumption || reflexivity).
      intros L'. now apply lex_lt_asym in L'.
    + assert (L' : ~ lex_lt (project a) (project b))
        by (rewrite <- string_lt_lex, L; discriminate).
      split; split; try discriminate; try reflexivity; try contradiction.
      intros _. destruct (lex_lt_total _ _ Hne); [contradiction | assumption].
  - intros Hp Ha Hb. rewrite Hp, String.eqb_refl, Ha, Hb. cbn. auto.
  - intros Hp Hu. rewrite Hp, String.eqb_refl, Hu, Bool.eqb_reflx. cbn [negb].
    destruct (string_lt (getHash a) (getHash b)) eqn:L.
    + apply string_lt_lex in L.
      split; split; try discriminate; try (intros _; assumption || reflexivity).
      contradiction.
    + assert (L' : ~ lex_lt (getHash a) (getHash b))
        by (rewrite <- string_lt_lex, L; discriminate).
      split; split; try discriminate; try reflexivity; try contradiction.
      intros _. assumption.
Qed.

Lemma compare_tiers_witness :
  compare (mkNetId "SHAC" (Some 254) None None (Some 1) None)
          (mkNetId "SHAC" (Some 254) (Some 56) (Some 191) None None) = 1
  /\ compare (mkNetId "SHAC" (Some 254) (Some 56) (Some 191) None None)
             (mkNetId "SHAC" (Some 254) None None (Some 1) None) = -1.
Proof.
  exact (proj1 (proj2
           (compare_tiers (mkNetId "SHAC" (Some 254) None None (Some 1) None)
                          (mkNetId "SHAC" (Some 254) (Some 56) (Some 191) None None)))
           eq_refl eq_refl eq_refl).
Defined.

(** [compare] returns -1 or 1 and nothing else. *)
Lemma compare_values (a b : NetId) : compare a b = -1 \/ compare a b = 1.
Proof.
  unfold compare.
  repeat match goal with |- context [if ?c then _ else _] => destruct c end;
    auto.
Qed.

(** C1, evaluated where it fails: an identifier compared with itself
    yields 1, so [compare] does not return 0 on identifiers that
    [isEquals] holds of, and [compare a a] differs from [- compare a a]. *)
Theorem compare_same_identifier (a : NetId) :
  compare a a = 1 /\ isEquals a a = true /\ compare a a <> - compare a a.
Proof.
  assert (H : compare a a = 1).
  { unfold compare.
    rewrite String.eqb_refl, Bool.eqb_reflx, !string_lt_irrefl. reflexivity. }
  repeat apply conj.
  - exact H.
  - unfold isEquals. now rewrite !String.eqb_refl.
  - rewrite H. discriminate.
Qed.

(** Away from that case the order is as the specification describes it:
    "sorts before" is transitive, and of two identifiers that differ in
    project, unit-ness or hash exactly one sorts before the other. *)
Lemma compare_before_iff (a b : NetId) :
  compare a b = -1 <->
  lex_lt (project a) (project b)
  \/ (project a = project b /\ isUnitId a = false /\ isUnitId b = true)
  \/ (project a = project b /\ isUnitId a = isUnitId b
      /\ lex_lt (getHash a) (getHash b)).
Proof.
  assert (Irr : forall s, lex_lt s s -> False) by apply lex_lt_irrefl.
  assert (Lt : forall s t, string_lt s t = false -> lex_lt s t -> False).
  { intros s t E L. apply string_lt_lex in L. congruence. }
  unfold compare.
  destruct (String.eqb_spec (project a) (project b)) as [Hp|Hp]; cbn [negb].
  - rewrite Hp.
    destruct (isUnitId a), (isUnitId b); cbn [Bool.eqb negb].
    + destruct (string_lt (getHash a) (getHash b)) eqn:L.
      * apply string_lt_lex in L. split; auto.
      * split; [discriminate|].
        intros [L' | [(_ & ? & _) | (_ & _ & L')]];
          try discriminate; exfalso; eauto.
    + split; [discriminate|].
      intros [L' | [(_ & ? & _) | (_ & ? & _)]];
        try discriminate; exfalso; eauto.
    + split; auto 6.
    + destruct (string_lt (getHash a) (getHash b)) eqn:L.
      * apply string_lt_lex in L. split; auto.
      * split; [discriminate|].
        intros [L' | [(_ & _ & ?) | (_ & _ & L')]];
          try discriminate; exfalso; eauto.
  - destruct (string_lt (project a) (project b)) eqn:L.
    + apply string_lt_lex in L. split; auto.
    + split; [discriminate|].
      intros [L' | [(? & _) | (? & _)]]; try contradiction.
      exfalso; eauto.
Qed.

(** X16: "sorts before" is transitive: if [compare a b] and
    [compare b c] are both -1, so is [compare a c], for any three
    identifiers. *)
Lemma compare_before_trans (a b c : NetId) :
  compare a b = -1 -> compare b c = -1 -> compare a c = -1.
Proof.
  rewrite !compare_before_iff.
  intros [L1 | [(P1 & A1 & B1) | (P1 & U1 & H1)]]
         [L2 | [(P2 & A2 & B2) | (P2 & U2 & H2)]].
  - left. eapply lex_lt_trans; eassumption.
  - left. now rewrite <- P2.
  - left. now rewrite <- P2.
  - left. now rewrite P1.
  - congruence.
  - right. left. repeat split; congruence.
  - left. now rewrite P1.
  - right. left. repeat split; congruence.
  - right. right. repeat split; try congruence.
    eapply lex_lt_trans; eassumption.
Qed.

Lemma compare_antisym_distinct (a b : NetId) :
  project a <> project b \/ isUnitId a <> isUnitId b
  \/ getHash a <> getHash b ->
  compare a b = - compare b a.
Proof.
  intros D.
  assert (E : compare a b = -1 <-> compare b a <> -1).
  { rewrite !compare_before_iff.
    destruct (string_dec (project a) (project b)) as [Hp|Hp].
    - destruct (isUnitId a) eqn:Ha, (isUnitId b) eqn:Hb.
      + destruct D as [D | [D | D]]; try contradiction.
        destruct (lex_lt_total _ _ D) as [L|L].
        * split; [|auto].
          intros _ [L' | [(_ & ? & _) | (_ & _ & L')]]; try discriminate.
          -- rewrite Hp in L'. now apply lex_lt_irrefl in L'.
          -- now apply lex_lt_asym in L'.
        * split.
          -- intros [L' | [(_ & ? & _) | (_ & _ & L')]]; try discriminate.
             ++ rewrite Hp in L'. now apply lex_lt_irrefl in L'.
             ++ now apply lex_lt_asym in L'.
          -- intros N. exfalso. apply N. right. right. auto.
      + split.
        * intros [L | [(_ & ? & _) | (_ & ? & _)]]; try discriminate.
          rewrite Hp in L. now apply lex_lt_irrefl in L.
        * intros N. exfalso. apply N. right. left. auto.
      + split; [|intros _; right; left; auto].
        intros _ [L | [(_ & ? & _) | (_ & ? & _)]]; try discriminate.
        rewrite Hp in L. now apply lex_lt_irrefl in L.
      + destruct D as [D | [D | D]]; try contradiction.
        destruct (lex_lt_total _ _ D) as [L|L].
        * split; [|auto].
          intros _ [L' | [(_ & _ & ?) | (_ & _ & L')]]; try discriminate.
          -- rewrite Hp in L'. now apply lex_lt_irrefl in L'.
          -- now apply lex_lt_asym in L'.
        * split.
          -- intros [L' | [(_ & _ & ?) | (_ & _ & L')]]; try discriminate.
             ++ rewrite Hp in L'. now apply lex_lt_irrefl in L'.
             ++ now apply lex_lt_asym in L'.
          -- intros N. exfalso. apply N. right. right. auto.
    - destruct (lex_lt_total _ _ Hp) as [L|L].
      + split; [|auto].
        intros _ [L' | [(? & _) | (? & _)]]; try (symmetry in H; contradiction).
        now apply lex_lt_asym in L'.
      + split.
        * intros [L' | [(? & _) | (? & _)]]; try contradiction.
          now apply lex_lt_asym in L'.
        * intros N. exfalso. apply N. auto. }
  destruct (compare_values a b) as [Hab|Hab], (compare_values b a) as [Hba|Hba];
    rewrite Hab, Hba; try reflexivity; exfalso.
  - apply E in Hab. contradiction.
  - assert (compare a b = -1) by (apply E; rewrite Hba; discriminate).
    congruence.
Qed.

(** ** Patterns and their languages *)

Lemma rep_class_sound cls s :
  forall lo hi caps (k : continuation) m,
    within hi lo ->
    rep_class cls lo hi s caps k = Some m ->
    exists s1 s2,
      s = s1 ++ s2 /\ matches (Rep lo hi cls) s1 /\ k s2 caps = Some m.
Proof.
  assert (Stop : forall hi s0 caps (k : continuation) m,
             k s0 caps = Some m ->
             exists s1 s2 : string,
               s0 = s1 ++ s2 /\ matches (Rep 0 hi cls) s1
               /\ k s2 caps = Some m).
  { intros hi s0 caps k m Hk. exists "", s0.
    repeat split; [|assumption].
    constructor; cbn; [reflexivity | lia | destruct hi; cbn; lia]. }
  induction s as [|c s IH]; intros lo hi caps k m W H.
  - destruct hi as [[|h]|]; cbn in H, W.
    + assert (lo = O) by lia. subst lo. now apply Stop.
    + destruct lo; [now apply Stop | discriminate].
    + destruct lo; [now apply Stop | discriminate].
  - assert (Step : forall lo' hi',
               within hi' lo' ->
               (if in_class cls c
                then rep_class cls lo' hi' s caps k else None) = Some m ->
               exists s1 s2 : string,
                 String c s = s1 ++ s2
                 /\ all_in_class cls s1 = true
                 /\ (S lo' <= String.length s1)%nat
                 /\ within (option_map S hi') (String.length s1)
                 /\ k s2 caps = Some m).
    { intros lo' hi' W' Hi.
      destruct (in_class cls c) eqn:Hc; [|discriminate].
      destruct (IH _ _ _ _ _ W' Hi) as (s1 & s2 & -> & M & Hk).
      inversion M; subst.
      exists (String c s1), s2. cbn. rewrite Hc.
      repeat split; try assumption; try lia.
      destruct hi'; cbn in *; lia. }
    destruct hi as [[|h]|]; cbn in W.
    + cbn in H. assert (lo = O) by lia. subst lo. now apply Stop.
    + destruct lo as [|lo]; cbn [rep_class option_map Nat.pred] in H.
      * destruct (if in_class cls c then rep_class cls 0 (Some h) s caps k
                  else None) eqn:Hi; [|now apply Stop].
        injection H as ->.
        destruct (Step O (Some h) ltac:(cbn; lia) Hi)
          as (s1 & s2 & E & A & L & B & Hk).
        exists s1, s2. repeat split; try assumption.
        constructor; [assumption | lia | exact B].
      * destruct (Step lo (Some h) ltac:(cbn; lia) H)
          as (s1 & s2 & E & A & L & B & Hk).
        exists s1, s2. repeat split; try assumption.
        constructor; [assumption | lia | exact B].
    + destruct lo as [|lo]; cbn [rep_class option_map Nat.pred] in H.
      * destruct (if in_class cls c then rep_class cls 0 None s caps k
                  else None) eqn:Hi; [|now apply Stop].
        injection H as ->.
        destruct (Step O None I Hi) as (s1 & s2 & E & A & L & B & Hk).
        exists s1, s2. repeat split; try assumption.
        constructor; [assumption | lia | exact I].
      * destruct (Step lo None I H) as (s1 & s2 & E & A & L & B & Hk).
        exists s1, s2. repeat split; try assumption.
        constructor; [assumption | lia | exact I].
Qed.

Lemma rep_class_complete cls s1 :
  forall lo hi s2 caps (k : continuation),
    all_in_class cls s1 = true ->
    (lo <= String.length s1)%nat -> within hi (String.length s1) ->
    k s2 caps <> None ->
    rep_class cls lo hi (s1 ++ s2) caps k <> None.
Proof.
  induction s1 as [|c s1 IH]; intros lo hi s2 caps k A L B Hk.
  - cbn in L. assert (lo = O) by lia. subst lo. cbn [append].
    destruct s2 as [|d s2]; destruct hi as [[|h]|]; cbn; try assumption;
      match goal with
      | |- context [match ?i with Some _ => _ | None => _ end] =>
        destruct i; [discriminate | assumption]
      end.
  - cbn in A. apply andb_true_iff in A as [Hc A]. cbn in L.
    assert (Hi : forall hi', within hi' (String.length s1) ->
                 (if in_class cls c
                  then rep_class cls (Nat.pred lo) hi' (s1 ++ s2) caps k
                  else None) <> None).
    { intros hi' B'. rewrite Hc. apply IH; try assumption. lia. }
    destruct hi as [[|h]|]; cbn in B; [lia| |];
      cbn [append rep_class option_map Nat.pred].
    + specialize (Hi (Some h) ltac:(cbn; lia)).
      destruct lo; [|assumption].
      destruct (if in_class cls c
                then rep_class cls (Nat.pred 0) (Some h) (s1 ++ s2) caps k
                else None); [discriminate | contradiction].
    + specialize (Hi None I).
      destruct lo; [|assumption].
      destruct (if in_class cls c
                then rep_class cls (Nat.pred 0) None (s1 ++ s2) caps k
                else None); [discriminate | contradiction].
Qed.

Lemma rmatch_sound r :
  well_quantified r = true ->
  forall s caps (k : continuation) m,
    rmatch r s caps k = Some m ->
    exists s1 s2 caps',
      s = s1 ++ s2 /\ matches r s1 /\ k s2 caps' = Some m.
Proof.
  induction r as [c | lo hi cls | r1 IH1 r2 IH2 | r1 IH1 r2 IH2 | r IH | i r IH];
    cbn [well_quantified rmatch]; intros W s caps k m H.
  - destruct s as [|d s]; [discriminate|].
    destruct (Ascii.eqb_spec c d) as [<-|]; [|discriminate].
    exists (String c ""), s, caps. repeat split; [constructor | assumption].
  - assert (W' : within hi lo).
    { destruct hi as [h|]; cbn; [now apply Nat.leb_le | exact I]. }
    destruct (rep_class_sound _ _ _ _ _ _ _ W' H) as (s1 & s2 & E & M & Hk).
    exists s1, s2, caps. auto.
  - apply andb_true_iff in W as [W1 W2].
    destruct (IH1 W1 _ _ _ _ H) as (s1 & s' & caps1 & -> & M1 & H2).
    destruct (IH2 W2 _ _ _ _ H2) as (s2 & s3 & caps2 & -> & M2 & Hk).
    exists (s1 ++ s2), s3, caps2. rewrite append_assoc.
    repeat split; [now constructor | assumption].
  - apply andb_true_iff in W as [W1 W2].
    destruct (rmatch r1 s caps k) as [m1|] eqn:H1.
    + injection H as ->.
      destruct (IH1 W1 _ _ _ _ H1) as (s1 & s2 & caps' & E & M & Hk).
      exists s1, s2, caps'. repeat split; [assumption | | assumption].
      now apply M_Alt_l.
    + destruct (IH2 W2 _ _ _ _ H) as (s1 & s2 & caps' & E & M & Hk).
      exists s1, s2, caps'. repeat split; [assumption | | assumption].
      now apply M_Alt_r.
  - match type of H with
    | match ?a with Some _ => _ | None => _ end = _ =>
      destruct a as [m1|] eqn:H1
    end.
    + injection H as ->.
      destruct (IH W _ _ _ _ H1) as (s1 & s2 & caps' & E & M & Hk).
      destruct (String.length s2 =? String.length s)%nat; [discriminate|].
      exists s1, s2, caps'. repeat split; [assumption | | assumption].
      now apply M_Opt_some.
    + exists "", s, caps. repeat split; [constructor | assumption].
  - destruct (IH W _ _ _ _ H) as (s1 & s2 & caps' & E & M & Hk).
    exists s1, s2, (set_capture i (consumed s s2) caps').
    repeat split; [assumption | | assumption].
    now constructor.
Qed.

Lemma rmatch_complete r s1 :
  matches r s1 ->
  forall s2 caps (k : continuation),
    accepts k s2 -> rmatch r (s1 ++ s2) caps k <> None.
Proof.
  induction 1 as [c | lo hi cls s A L B | r1 r2 sa sb _ IH1 _ IH2
                  | r1 r2 s _ IH | r1 r2 s _ IH | r | r s _ IH | i r s _ IH];
    intros s2 caps k Hk; cbn [rmatch].
  - cbn. rewrite Ascii.eqb_refl. apply Hk.
  - apply rep_class_complete; try assumption. apply Hk.
  - rewrite append_assoc. apply IH1. intros caps'. now apply IH2.
  - specialize (IH s2 caps k Hk).
    destruct (rmatch r1 (s ++ s2) caps k); [discriminate | contradiction].
  - destruct (rmatch r1 (s ++ s2) caps k); [discriminate | now apply IH].
  - cbn [append].
    match goal with
    | |- match ?a with Some _ => _ | None => _ end <> _ => destruct a
    end; [discriminate | apply Hk].
  - match goal with
    | |- match ?a with Some _ => _ | None => _ end <> _ =>
      destruct a eqn:H1
    end; [discriminate|].
    destruct s as [|c s]; [apply Hk|].
    exfalso. revert H1. apply IH. intros caps'.
    rewrite length_append. cbn [String.length].
    destruct (Nat.eqb_spec (String.length s2)
                           (S (String.length s) + String.length s2)) as [E|_];
      [lia | apply Hk].
  - apply IH. intros caps'. apply Hk.
Qed.

(** The match succeeds exactly on the strings of the language. *)
Lemma match_anchored_matches n r s :
  well_quantified r = true ->
  match_anchored n r s <> None <-> matches r s.
Proof.
  intros W. unfold match_anchored. split.
  - intros H.
    destruct (rmatch r s (Some s :: repeat None n) at_end) as [m|] eqn:E;
      [|contradiction].
    destruct (rmatch_sound r W _ _ _ _ E) as (s1 & s2 & caps' & -> & M & Hk).
    destruct s2; [|discriminate]. now rewrite append_nil_r.
  - intros M. rewrite <- (append_nil_r s) at 1.
    apply rmatch_complete; [assumption|]. intros caps. discriminate.
Qed.

Lemma test_matches n r s :
  well_quantified r = true -> test n r s = true <-> matches r s.
Proof.
  intros W. rewrite <- (match_anchored_matches n r s W). unfold test.
  destruct (match_anchored n r s); split; congruence.
Qed.

(** ** Parsing *)

Lemma matches_erase_groups r s : matches (erase_groups r) s <-> matches r s.
Proof.
  split.
  - revert s.
    induction r as [c | lo hi cls | r1 IH1 r2 IH2 | r1 IH1 r2 IH2 | r IH | i r IH];
      cbn [erase_groups]; intros s H; try assumption.
    + inversion H; subst. constructor; auto.
    + inversion H; subst; [apply M_Alt_l | apply M_Alt_r]; auto.
    + inversion H; subst; [apply M_Opt_none | apply M_Opt_some]; auto.
    + constructor. auto.
  - induction 1; cbn [erase_groups];
      first [assumption | constructor; assumption].
Qed.

Lemma matches_Seq_right r1 r2 r2' s :
  (forall t, matches r2 t -> matches r2' t) ->
  matches (Seq r1 r2) s -> matches (Seq r1 r2') s.
Proof.
  intros Hr H. inversion H; subst. constructor; auto.
Qed.

Lemma matches_Seq_inv r1 r2 s :
  matches (Seq r1 r2) s ->
  exists s1 s2, s = s1 ++ s2 /\ matches r1 s1 /\ matches r2 s2.
Proof.
  intros M. inversion M; subst. eauto.
Qed.

Lemma matches_Seq_assoc a b c s :
  matches (Seq (Seq a b) c) s <-> matches (Seq a (Seq b c)) s.
Proof.
  split; intros H.
  - inversion H as [ | | r1 r2 sab sc Hab Hc | | | | | ]; subst.
    inversion Hab; subst. rewrite append_assoc.
    constructor; [assumption | now constructor].
  - inversion H as [ | | r1 r2 sa sbc Ha Hbc | | | | | ]; subst.
    inversion Hbc; subst. rewrite <- append_assoc.
    constructor; [now constructor | assumption].
Qed.

(** The pattern of [parse], read as a grammar, is [pattern_grammar]. *)
Lemma NETID_REGEX_grammar s :
  matches NETID_REGEX s <-> matches pattern_grammar s.
Proof.
  rewrite <- matches_erase_groups.
  unfold pattern_grammar, NETID_REGEX, hierarchy; cbn [erase_groups].
  split; do 2 (apply matches_Seq_right; intros ?); apply matches_Seq_assoc.
Qed.

Lemma CBusNetId_not_malformed p n p3 p4 p5 t :
  CBusNetId p n p3 p4 p5 <> Err (MalformedNetId t).
Proof.
  assert (Vn : forall v name e,
             validatedNumber v name = Err e ->
             @Err NetId e <> Err (MalformedNetId t)).
  { intros v name e H.
    apply validatedNumber_Err in H as (z & _ & _ & ->). discriminate. }
  unfold CBusNetId.
  destruct p as [name|]; [|discriminate].
  destruct (validatedProjectName name) as [pr|e] eqn:Hp; cbn [bind].
  2:{ apply validatedProjectName_Err in Hp. intros [= ->]. discriminate. }
  destruct (if truthy p5 then validatedChannelNumber p5 else Ok None)
    as [ch|e] eqn:Hc; cbn [bind].
  2:{ destruct (truthy p5); [|discriminate].
      apply validatedChannelNumber_Err in Hc as (z & _ & _ & ->).
      discriminate. }
  destruct (validatedNumber n "network") as [nw|e] eqn:Hn; cbn [bind];
    [|now apply (Vn _ _ _ Hn)].
  destruct (is_p p3).
  - destruct (validatedNumber p4 "unitAddress") as [ua|e] eqn:Hu; cbn [bind];
      [|now apply (Vn _ _ _ Hu)].
    destruct ua, nw; cbn; discriminate.
  - destruct (validatedNumber p3 "application") as [ap|e] eqn:Ha; cbn [bind];
      [|now apply (Vn _ _ _ Ha)].
    destruct (validatedNumber p4 "group") as [gr|e] eqn:Hg; cbn [bind];
      [|now apply (Vn _ _ _ Hg)].
    destruct gr, ap, nw; cbn; discriminate.
Qed.

(** C4, as the specification states it, fails: a bare trailing slash is
    outside the canonical grammar, and [parse] accepts it. *)
Lemma trailing_slash_accepted :
  ~ matches canonical_grammar "//SHAC/"
  /\ parse "//SHAC/" = Ok (mkNetId "SHAC" None None None None None).
Proof.
  split; [|reflexivity].
  rewrite <- (test_matches 0 canonical_grammar "//SHAC/" eq_refl).
  discriminate.
Qed.

(** [parse] reports a badly formed text exactly when its pattern does not
    match. *)
Lemma parse_malformed_pattern (text : string) :
  (matches pattern_grammar text ->
   forall t, parse text <> Err (MalformedNetId t))
  /\ (~ matches pattern_grammar text -> parse text = Err (MalformedNetId text)).
Proof.
  rewrite <- NETID_REGEX_grammar,
    <- (match_anchored_matches 5 NETID_REGEX text eq_refl).
  unfold parse.
  destruct (match_anchored 5 NETID_REGEX text) as [components|].
  - split.
    + intros _ t. apply CBusNetId_not_malformed.
    + intros H. exfalso. apply H. discriminate.
  - split; [intros H; now contradiction H | reflexivity].
Qed.

Lemma canonical_trailing s :
  matches canonical_grammar s -> matches trailing_slash_grammar s.
Proof.
  unfold canonical_grammar, trailing_slash_grammar.
  do 3 (apply matches_Seq_right; intros ?).
  intros H. inversion H as [ | | | | | r0 | r0 s0 H0 | ]; subst.
  - apply M_Opt_none.
  - inversion H0; subst. apply M_Opt_some. constructor; [assumption|].
    now apply M_Opt_some.
Qed.

Lemma trailing_pattern s :
  matches trailing_slash_grammar s -> matches pattern_grammar s.
Proof.
  unfold trailing_slash_grammar, pattern_grammar.
  do 3 (apply matches_Seq_right; intros ?).
  intros H. inversion H as [ | | | | | r0 | r0 s0 H0 | ]; subst.
  - change "" with ("" ++ ""). constructor; constructor.
  - inversion H0; subst. constructor; [now apply M_Opt_some | assumption].
Qed.

(** A text the pattern matches has its last digits after a slash, or
    glued to the hierarchy. *)
Lemma pattern_trailing_or_glued s :
  matches pattern_grammar s ->
  matches trailing_slash_grammar s \/ matches glued_digits s.
Proof.
  unfold pattern_grammar, trailing_slash_grammar, glued_digits. intros M.
  apply matches_Seq_inv in M as (s1 & t1 & -> & M1 & M).
  apply matches_Seq_inv in M as (s2 & t2 & -> & M2 & M).
  apply matches_Seq_inv in M as (h & t3 & -> & Mh & M).
  apply matches_Seq_inv in M as (o1 & o2 & -> & Mo1 & Mo2).
  inversion Mo1 as [ | | | | | r0 | r0 s0 H0 | ]; subst.
  - inversion Mo2 as [ | | | | | r0 | r0 s0 H0 | ]; subst.
    + left. do 3 (constructor; [assumption|]). apply M_Opt_none.
    + right. do 3 (constructor; [assumption|]). assumption.
  - left. do 3 (constructor; [assumption|]).
    apply M_Opt_some. now constructor.
Qed.

(** C4, amended: a text of the canonical grammar with the digits after
    the last slash optional,
    ["//" project ("/" network ("/" appOrUnit ("/" group)?)?)? ("/" channel?)?],
    is never rejected as malformed, while it may still fail with a
    construction error; every text of the canonical grammar is one.  A
    text outside that grammar is rejected as malformed, unless it is a
    hierarchy with digits glued to it, on which nothing is said here. *)
Theorem parse_malformed_grammar (text : string) :
  (matches trailing_slash_grammar text ->
   forall t, parse text <> Err (MalformedNetId t))
  /\ (matches canonical_grammar text -> matches trailing_slash_grammar text)
  /\ (~ matches trailing_slash_grammar text -> ~ matches glued_digits text ->
      parse text = Err (MalformedNetId text)).
Proof.
  destruct (parse_malformed_pattern text) as [In Out].
  repeat apply conj.
  - intros M. apply In. now apply trailing_pattern.
  - apply canonical_trailing.
  - intros T G. apply Out. intros M.
    apply pattern_trailing_or_glued in M as [M|M]; contradiction.
Qed.

Lemma parse_malformed_grammar_witness :
  (forall t, parse "//SHAC/254/56/" <> Err (MalformedNetId t))
  /\ parse "//SHAC/254/56/191/3/" = Err (MalformedNetId "//SHAC/254/56/191/3/").
Proof.
  split.
  - apply (proj1 (parse_malformed_grammar "//SHAC/254/56/")).
    now apply (test_matches 0 trailing_slash_grammar "//SHAC/254/56/" eq_refl).
  - apply (proj2 (proj2 (parse_malformed_grammar "//SHAC/254/56/191/3/"))).
    + rewrite <- (test_matches 0 trailing_slash_grammar
                               "//SHAC/254/56/191/3/" eq_refl).
      discriminate.
    + rewrite <- (test_matches 0 glued_digits "//SHAC/254/56/191/3/" eq_refl).
      discriminate.
Defined.

(** ** The round trip through [toString] *)

(** C2, evaluated where it fails: the constructor accepts a unit address
    together with a channel, [toString] then takes its channel branch and
    prints the application and the group, both [undefined], and [parse]
    refuses the text. *)
Theorem unit_with_channel_round_trip :
  exists x,
    CBusNetId (Some "SHAC") (Num 254) (Str "p") (Num 22) (Num 3) = Ok x
    /\ isUnitId x = true
    /\ toString x = "//SHAC/254/undefined/undefined/3"
    /\ parse (toString x)
       = Err (MalformedNetId "//SHAC/254/undefined/undefined/3").
Proof.
  eexists. split; [reflexivity|]. repeat split; reflexivity.
Qed.

(** *** The pattern on canonical texts *)

Lemma consumed_append (s1 s2 : string) : consumed (s1 ++ s2) s2 = s1.
Proof.
  unfold consumed. rewrite length_append.
  replace (String.length s1 + String.length s2 - String.length s2)%nat
    with (String.length s1) by lia.
  induction s1 as [|c s1 IH]; cbn.
  - now destruct s2.
  - now rewrite IH.
Qed.

(** The greedy quantifier takes a whole token when the continuation
    succeeds after it. *)
Lemma rep_class_greedy cls s1 :
  forall lo hi s2 caps (k : continuation) m,
    all_in_class cls s1 = true ->
    (lo <= String.length s1)%nat -> within hi (String.length s1) ->
    stops cls s2 = true ->
    k s2 caps = Some m ->
    rep_class cls lo hi (s1 ++ s2) caps k = Some m.
Proof.
  induction s1 as [|c s1 IH]; intros lo hi s2 caps k m A L B St Hk.
  - cbn in L. assert (lo = O) by lia. subst lo. cbn [append].
    destruct s2 as [|d s2]; destruct hi as [[|h]|]; cbn; try assumption;
      cbn in St; apply negb_true_iff in St; now rewrite St.
  - cbn in A. apply andb_true_iff in A as [Hc A]. cbn in L.
    destruct hi as [[|h]|]; cbn in B; [lia| |];
      cbn [append rep_class option_map Nat.pred]; rewrite Hc.
    + assert (E : rep_class cls (Nat.pred lo) (Some h) (s1 ++ s2) caps k
                  = Some m)
        by (apply IH; try assumption; cbn; lia).
      rewrite E. now destruct lo.
    + assert (E : rep_class cls (Nat.pred lo) None (s1 ++ s2) caps k = Some m)
        by (apply IH; try assumption; cbn; lia).
      rewrite E. now destruct lo.
Qed.

Lemma rmatch_Grp_token i cls lo hi s1 s2 caps (k : continuation) m :
  token cls lo hi s1 -> stops cls s2 = true ->
  k s2 (set_capture i s1 caps) = Some m ->
  rmatch (Grp i (Rep lo (Some hi) cls)) (s1 ++ s2) caps k = Some m.
Proof.
  intros (A & L & B) St Hk. cbn [rmatch].
  apply rep_class_greedy; try assumption.
  now rewrite consumed_append.
Qed.

Lemma token_head cls lo hi s :
  token cls (S lo) hi s ->
  exists c s', s = String c s' /\ in_class cls c = true.
Proof.
  intros (A & L & _). destruct s as [|c s']; cbn in L; [lia|].
  cbn in A. apply andb_true_iff in A as [Hc _]. eauto.
Qed.

(** The guard of [?] against an empty iteration lets a shorter suffix
    through. *)
Lemma guard_shorter (s' s : string) (r : option captures) :
  (String.length s' < String.length s)%nat ->
  (if (String.length s' =? String.length s)%nat then None else r) = r.
Proof.
  intros H. destruct (Nat.eqb_spec (String.length s') (String.length s));
    [lia | reflexivity].
Qed.

Lemma rmatch_Grp_token_end i cls lo hi s1 caps (k : continuation) m :
  token cls lo hi s1 ->
  k "" (set_capture i s1 caps) = Some m ->
  rmatch (Grp i (Rep lo (Some hi) cls)) s1 caps k = Some m.
Proof.
  intros T Hk. rewrite <- (append_nil_r s1) at 1.
  now apply rmatch_Grp_token.
Qed.

Lemma rmatch_Opt_take r s caps (k : continuation) m :
  rmatch r s caps
         (fun s' caps' =>
            if (String.length s' =? String.length s)%nat
            then None else k s' caps') = Some m ->
  rmatch (Opt r) s caps k = Some m.
Proof.
  intros H. cbn [rmatch]. now rewrite H.
Qed.

Lemma rmatch_Chr_hit c s caps (k : continuation) :
  rmatch (Chr c) (String c s) caps k = k s caps.
Proof.
  cbn [rmatch]. now rewrite Ascii.eqb_refl.
Qed.

Lemma rmatch_Alt_digit i r s1 s2 caps (k : continuation) lo hi :
  token digit (S lo) hi s1 ->
  rmatch (Grp i (Alt (Chr "p") r)) (s1 ++ s2) caps k
  = rmatch (Grp i r) (s1 ++ s2) caps k.
Proof.
  intros T. destruct (token_head _ _ _ _ T) as (c & s' & -> & Hc).
  cbn [rmatch append].
  destruct (Ascii.eqb_spec "p" c) as [<-|_]; [discriminate | reflexivity].
Qed.

Lemma rmatch_Alt_p i r s caps (k : continuation) m :
  k s (set_capture i "p" caps) = Some m ->
  rmatch (Grp i (Alt (Chr "p") r)) (String "p" s) caps k = Some m.
Proof.
  intros H. cbn [rmatch]. rewrite Ascii.eqb_refl.
  change (String "p" s) with ("p" ++ s). rewrite consumed_append.
  now rewrite H.
Qed.

Ltac shorter :=
  repeat first [rewrite length_append | progress (cbn [String.length append])];
  repeat match goal with
         | H : token _ ?lo _ ?s |- context [String.length ?s] =>
           lazymatch goal with
           | _ : (lo <= String.length s)%nat |- _ => fail
           | _ => pose proof (proj1 (proj2 H))
           end
         end;
  lia.

(** One step of the matcher along a text made of tokens. *)
Ltac rstep :=
  cbv beta;
  lazymatch goal with
  | |- rmatch (Seq ?r1 ?r2) ?s ?caps ?k = _ =>
    change (rmatch (Seq r1 r2) s caps k)
      with (rmatch r1 s caps (fun s' caps' => rmatch r2 s' caps' k))
  | |- rmatch (Chr ?c) (String ?c _) _ _ = _ =>
    rewrite rmatch_Chr_hit
  | |- rmatch (Grp _ (Rep _ _ _)) (_ ++ _) _ _ = Some _ =>
    apply rmatch_Grp_token; [assumption | reflexivity |]
  | |- rmatch (Grp _ (Rep _ _ _)) _ _ _ = Some _ =>
    apply rmatch_Grp_token_end; [assumption |]
  | |- rmatch (Grp _ (Alt (Chr "p") _)) (String "p" _) _ _ = Some _ =>
    apply rmatch_Alt_p
  | |- rmatch (Grp _ (Alt (Chr "p") _)) (_ ++ _) _ _ = Some _ =>
    erewrite rmatch_Alt_digit by eassumption
  | |- rmatch (Grp _ (Alt (Chr "p") ?r)) ?s ?caps ?k = Some _ =>
    rewrite <- (append_nil_r s) at 1;
    erewrite rmatch_Alt_digit by eassumption;
    rewrite (append_nil_r s)
  | |- rmatch (Opt _) EmptyString _ _ = _ =>
    fail
  | |- rmatch (Opt _) _ _ _ = Some _ =>
    apply rmatch_Opt_take
  | |- (if (String.length _ =? String.length _)%nat then None else _) = _ =>
    rewrite guard_shorter by shorter
  end.

Section CanonicalTexts.

Variables P N A G C U : string.
Hypothesis HP : token word 1 8 P.
Hypothesis HN : token digit 1 3 N.
Hypothesis HA : token digit 1 3 A.
Hypothesis HG : token digit 1 3 G.
Hypothesis HC : token digit 1 3 C.
Hypothesis HU : token digit 1 3 U.

Lemma match_project_text :
  match_anchored 5 NETID_REGEX ("//" ++ P)
  = Some [Some ("//" ++ P); Some P; None; None; None; None].
Proof using HP.
  unfold match_anchored, NETID_REGEX. cbn [append repeat].
  repeat rstep. reflexivity.
Qed.

Lemma match_network_text :
  match_anchored 5 NETID_REGEX ("//" ++ P ++ "/" ++ N)
  = Some [Some ("//" ++ P ++ "/" ++ N); Some P; Some N; None; None; None].
Proof using HP HN.
  unfold match_anchored, NETID_REGEX. cbn [append repeat].
  repeat rstep. reflexivity.
Qed.

Lemma match_application_text :
  match_anchored 5 NETID_REGEX ("//" ++ P ++ "/" ++ N ++ "/" ++ A)
  = Some [Some ("//" ++ P ++ "/" ++ N ++ "/" ++ A);
          Some P; Some N; Some A; None; None].
Proof using HP HN HA.
  unfold match_anchored, NETID_REGEX. cbn [append repeat].
  repeat rstep. reflexivity.
Qed.

Lemma match_group_text :
  match_anchored 5 NETID_REGEX ("//" ++ P ++ "/" ++ N ++ "/" ++ A ++ "/" ++ G)
  = Some [Some ("//" ++ P ++ "/" ++ N ++ "/" ++ A ++ "/" ++ G);
          Some P; Some N; Some A; Some G; None].
Proof using HP HN HA HG.
  unfold match_anchored, NETID_REGEX. cbn [append repeat].
  repeat rstep. reflexivity.
Qed.

Lemma match_channel_text :
  match_anchored 5 NETID_REGEX
    ("//" ++ P ++ "/" ++ N ++ "/" ++ A ++ "/" ++ G ++ "/" ++ C)
  = Some [Some ("//" ++ P ++ "/" ++ N ++ "/" ++ A ++ "/" ++ G ++ "/" ++ C);
          Some P; Some N; Some A; Some G; Some C].
Proof using HP HN HA HG HC.
  unfold match_anchored, NETID_REGEX. cbn [append repeat].
  repeat rstep. reflexivity.
Qed.

Lemma match_unit_text :
  match_anchored 5 NETID_REGEX ("//" ++ P ++ "/" ++ N ++ "/p/" ++ U)
  = Some [Some ("//" ++ P ++ "/" ++ N ++ "/p/" ++ U);
          Some P; Some N; Some "p"; Some U; None].
Proof using HP HN HU.
  unfold match_anchored, NETID_REGEX. cbn [append repeat].
  repeat rstep. reflexivity.
Qed.

End CanonicalTexts.

(** *** Texts of numbers and of project names *)

Lemma validatedProjectName_token name :
  validatedProjectName name = Ok name -> token word 1 8 name.
Proof.
  unfold validatedProjectName.
  destruct (existsb (String.eqb name) cgateReservedWords); [discriminate|].
  destruct (test 1 CMDN_REGEX name); [discriminate|].
  destruct (test 1 NUMERIC_REGEX name); [discriminate|].
  destruct (test 1 FORMAT_REGEX name) eqn:T; [|discriminate].
  intros _. apply (test_matches 1 FORMAT_REGEX name eq_refl) in T.
  inversion T as [ | | | | | | | i r s M ]; subst.
  inversion M; subst. repeat split; assumption.
Qed.

Lemma byte_text_ok_all :
  forallb byte_text_ok (map Z.of_nat (seq 0 256)) = true.
Proof.
  vm_compute. reflexivity.
Qed.

Lemma byte_text n :
  0 <= n <= 255 ->
  token digit 1 3 (decimal n) /\ integerise (Str (decimal n)) = Some n.
Proof.
  intros H.
  assert (I : In n (map Z.of_nat (seq 0 256))).
  { rewrite <- (Z2Nat.id n) by lia. apply in_map, in_seq. lia. }
  pose proof (proj1 (forallb_forall _ _) byte_text_ok_all n I) as B.
  unfold byte_text_ok in B.
  repeat (apply andb_true_iff in B as [B ?]).
  destruct (integerise (Str (decimal n))) as [z|]; [|discriminate].
  match goal with E : (z =? n) = true |- _ => apply Z.eqb_eq in E; subst z end.
  repeat split; try assumption; now apply Nat.leb_le.
Qed.

Lemma token_not_p s : token digit 1 3 s -> is_p (Str s) = false.
Proof.
  intros T. destruct (token_head _ _ _ _ T) as (c & s' & -> & Hc).
  cbn. destruct (Ascii.eqb_spec c "p") as [->|_]; [discriminate | reflexivity].
Qed.

Lemma token_truthy s : token digit 1 3 s -> truthy (Str s) = true.
Proof.
  intros T. destruct (token_head _ _ _ _ T) as (c & s' & -> & _). reflexivity.
Qed.

Lemma validatedNumber_text n name :
  0 <= n <= 255 -> validatedNumber (Str (decimal n)) name = Ok (Some n).
Proof.
  intros H. unfold validatedNumber.
  destruct (byte_text n H) as [_ ->].
  destruct (Z.ltb_spec n 0); [lia|]. destruct (Z.gtb_spec n 255); [lia|].
  reflexivity.
Qed.

Lemma validatedChannelNumber_text c :
  1 <= c <= 7 -> validatedChannelNumber (Str (decimal c)) = Ok (Some c).
Proof.
  intros H. unfold validatedChannelNumber.
  destruct (byte_text c ltac:(lia)) as [_ ->].
  destruct (Z.leb_spec c 0); [lia|]. destruct (Z.geb_spec c 8); [lia|].
  now rewrite andb_false_r.
Qed.

(** *** The round trip where [toString] prints the fields that are set *)

Lemma parse_toString x :
  well_formed x -> isUnitId x && has_channel x = false ->
  parse (toString x)
  = Ok (mkNetId (project x) (network x) (application x) (group x)
                (unitAddress x)
                (if defined (group x) && has_channel x
                 then channel x else None)).
Proof.
  intros W Hu.
  pose proof (validatedProjectName_token _ (wf_project x W)) as HP.
  pose proof (wf_project x W) as Hp.
  pose proof (wf_network x W) as Bn.
  pose proof (wf_application x W) as Ba.
  pose proof (wf_group x W) as Bg.
  pose proof (wf_unitAddress x W) as Bu.
  pose proof (wf_channel x W) as Bc.
  pose proof (wf_group_application x W) as Hga.
  pose proof (wf_application_network x W) as Han.
  pose proof (wf_unit_network x W) as Hun.
  pose proof (wf_unit_branch x W) as Hub.
  destruct x as [P nw ap gr ua ch].
  unfold isUnitId, has_channel in Hu. cbn [project network application group
    unitAddress channel] in *.
  unfold toString, parse, isProjectId, isNetworkId, isGroupId, isApplicationId,
    has_channel.
  cbn [project network application group unitAddress channel].
  destruct nw as [n|].
  2:{ destruct ap; [specialize (Han eq_refl); discriminate|].
      destruct ua; [specialize (Hun eq_refl); discriminate|].
      destruct gr; [specialize (Hga eq_refl); discriminate|].
      cbn [defined negb andb]. rewrite (match_project_text P HP).
      cbn [component nth value_of_component]. unfold CBusNetId.
      rewrite Hp. reflexivity. }
  destruct (byte_text n (Bn n eq_refl)) as [HN _].
  destruct ua as [u|].
  - destruct (Hub eq_refl) as [-> ->]. cbn in Hu. rewrite Hu.
    destruct (byte_text u (Bu u eq_refl)) as [HU _].
    cbn [defined negb andb interpolate].
    rewrite (match_unit_text P (decimal n) (decimal u) HP HN HU).
    cbn [component nth value_of_component]. unfold CBusNetId.
    rewrite Hp. cbn [bind truthy is_p String.eqb Ascii.eqb Bool.eqb].
    rewrite !validatedNumber_text by auto. reflexivity.
  - destruct ap as [a|].
    2:{ destruct gr; [specialize (Hga eq_refl); discriminate|].
        cbn [defined negb andb interpolate].
        rewrite (match_network_text P (decimal n) HP HN).
        cbn [component nth value_of_component]. unfold CBusNetId.
        rewrite Hp. cbn [bind truthy is_p].
        rewrite !validatedNumber_text by auto. reflexivity. }
    destruct (byte_text a (Ba a eq_refl)) as [HA _].
    destruct gr as [g|].
    2:{ cbn [defined negb andb interpolate].
        rewrite (match_application_text P (decimal n) (decimal a) HP HN HA).
        cbn [component nth value_of_component]. unfold CBusNetId.
        rewrite Hp, (token_not_p _ HA). cbn [bind truthy].
        rewrite !validatedNumber_text by auto. reflexivity. }
    destruct (byte_text g (Bg g eq_refl)) as [HG _].
    cbn [defined negb andb interpolate].
    destruct (truthy_field ch) eqn:Hc; cbn [negb andb].
    + destruct ch as [c|]; [|discriminate]. cbn in Hc.
      apply negb_true_iff, Z.eqb_neq in Hc.
      assert (Rc : 1 <= c <= 7) by (specialize (Bc c eq_refl); lia).
      destruct (byte_text c ltac:(lia)) as [HC _].
      cbn [interpolate].
      rewrite (match_channel_text P (decimal n) (decimal a) (decimal g)
                                  (decimal c) HP HN HA HG HC).
      cbn [component nth value_of_component]. unfold CBusNetId.
      rewrite Hp. cbn [bind]. rewrite (token_truthy _ HC).
      rewrite (token_not_p _ HA), validatedChannelNumber_text by assumption.
      cbn [bind].
      rewrite !validatedNumber_text by auto. reflexivity.
    + rewrite (match_group_text P (decimal n) (decimal a) (decimal g)
                                HP HN HA HG).
      cbn [component nth value_of_component]. unfold CBusNetId.
      rewrite Hp, (token_not_p _ HA). cbn [bind truthy].
      rewrite !validatedNumber_text by auto. reflexivity.
Qed.

(** X15: the round trip of section 8 on every constructed identifier
    other than a unit carrying a channel: [parse] reads the text back into
    an identifier that [isEquals] holds of. *)
Lemma round_trip p n p3 p4 p5 x :
  CBusNetId p n p3 p4 p5 = Ok x ->
  isUnitId x && has_channel x = false ->
  exists y, parse (toString x) = Ok y /\ isEquals y x = true.
Proof.
  intros H Hu. apply CBusNetId_well_formed in H.
  eexists. split; [now apply parse_toString|].
  unfold isEquals, getHash, isProjectId, isUnitId.
  cbn [project network application group unitAddress].
  now rewrite !String.eqb_refl.
Qed.

(** * Further properties of the module *)

(** ** Project names *)

Lemma existsb_eqb_In name l :
  existsb (String.eqb name) l = true <-> In name l.
Proof.
  rewrite existsb_exists. split.
  - intros (x & Hx & E). apply String.eqb_eq in E. now subst.
  - intros H. exists name. split; [assumption | apply String.eqb_refl].
Qed.

Lemma matches_Grp_Rep i lo hi cls s :
  matches (Grp i (Rep lo (Some hi) cls)) s <-> token cls lo hi s.
Proof.
  split.
  - intros M. inversion M as [ | | | | | | | i' r s' M' ]; subst.
    inversion M'; subst. repeat split; assumption.
  - intros (A & L & B). constructor. now constructor.
Qed.

Lemma matches_Grp_Rep_at i lo cls s :
  matches (Grp i (Rep lo None cls)) s ->
  all_in_class cls s = true /\ (lo <= String.length s)%nat.
Proof.
  intros M. inversion M as [ | | | | | | | i' r s' M' ]; subst.
  inversion M'; subst. split; assumption.
Qed.

Lemma test_token n i lo hi cls s :
  (lo <= hi)%nat ->
  test n (Grp i (Rep lo (Some hi) cls)) s = true <-> token cls lo hi s.
Proof.
  intros H. rewrite test_matches; [apply matches_Grp_Rep|].
  cbn. now apply Nat.leb_le.
Qed.

Lemma matches_Chr_inv c s : matches (Chr c) s -> s = String c "".
Proof.
  intros M. now inversion M.
Qed.

Lemma test_CMDN name : test 1 CMDN_REGEX name = true <-> cmd_number name.
Proof.
  rewrite (test_matches 1 CMDN_REGEX name eq_refl). unfold CMDN_REGEX. split.
  - intros M.
    apply matches_Seq_inv in M as (c1 & t1 & -> & MC & M).
    apply matches_Seq_inv in M as (c2 & t2 & -> & MM & M).
    apply matches_Seq_inv in M as (c3 & d & -> & MD & M).
    apply matches_Chr_inv in MC, MM, MD. subst.
    apply matches_Grp_Rep_at in M as (A & L).
    exists d. repeat split; try assumption.
    intros ->. cbn in L. lia.
  - intros (d & -> & Hd & A).
    change ("CMD" ++ d) with ("C" ++ "M" ++ "D" ++ d).
    repeat constructor; try assumption.
    destruct d; [contradiction | cbn; lia].
Qed.

Lemma not_true_false (b : bool) : b = false <-> ~ b = true.
Proof.
  destruct b; split; congruence.
Qed.

(** X1: [validatedProjectName] returns the name, unchanged, exactly when
    it is made of 1 to 8 characters among [A-Z], [0-9] and [_], is not one
    of the six reserved words, is not [CMD] followed by digits, and is not
    made of digits and underscores only; it returns nothing else. *)
Theorem validatedProjectName_accepts (name s : string) :
  validatedProjectName name = Ok s
  <-> s = name
      /\ token word 1 8 name
      /\ ~ In name cgateReservedWords
      /\ ~ cmd_number name
      /\ ~ token digit_or_underscore 1 8 name.
Proof.
  rewrite <- existsb_eqb_In, <- test_CMDN.
  rewrite <- (test_token 1 1 1 8 digit_or_underscore name) by lia.
  rewrite <- (test_token 1 1 1 8 word name) by lia.
  change (Grp 1 (Rep 1 (Some 8%nat) digit_or_underscore)) with NUMERIC_REGEX.
  change (Grp 1 (Rep 1 (Some 8%nat) word)) with FORMAT_REGEX.
  unfold validatedProjectName.
  destruct (existsb (String.eqb name) cgateReservedWords);
    [split; [discriminate | tauto]|].
  destruct (test 1 CMDN_REGEX name); [split; [discriminate | tauto]|].
  destruct (test 1 NUMERIC_REGEX name); [split; [discriminate | tauto]|].
  destruct (test 1 FORMAT_REGEX name); cbn [negb].
  - split.
    + intros [= <-]. repeat split; congruence.
    + intros (-> & _). reflexivity.
  - split; [discriminate|]. intros (_ & H & _). discriminate.
Qed.

(** X2: the rule [validatedProjectName] reports is the first that
    applies, in the order reserved word, [CMD] followed by digits, digits
    and underscores only, format; so [CMD] followed by any number of
    digits is reported as reserved whatever its length, a name of
    underscores only as all numeric, and the empty name as badly
    formatted. *)
Theorem validatedProjectName_rule (name : string) :
  (In name cgateReservedWords ->
   validatedProjectName name = Err (InvalidProjectName ReservedWord name))
  /\ (~ In name cgateReservedWords -> cmd_number name ->
      validatedProjectName name = Err (InvalidProjectName ReservedCMDn name))
  /\ (~ In name cgateReservedWords -> ~ cmd_number name ->
      token digit_or_underscore 1 8 name ->
      validatedProjectName name = Err (InvalidProjectName AllNumeric name))
  /\ (~ In name cgateReservedWords -> ~ cmd_number name ->
      ~ token word 1 8 name ->
      validatedProjectName name = Err (InvalidProjectName BadFormat name)).
Proof.
  rewrite <- existsb_eqb_In, <- test_CMDN.
  rewrite <- (test_token 1 1 1 8 digit_or_underscore name) by lia.
  rewrite <- (test_token 1 1 1 8 word name) by lia.
  change (Grp 1 (Rep 1 (Some 8%nat) digit_or_underscore)) with NUMERIC_REGEX.
  change (Grp 1 (Rep 1 (Some 8%nat) word)) with FORMAT_REGEX.
  unfold validatedProjectName.
  destruct (existsb (String.eqb name) cgateReservedWords);
    [repeat split; (reflexivity || (intros; exfalso; auto))|].
  destruct (test 1 CMDN_REGEX name);
    [repeat split; (reflexivity || discriminate || (intros; exfalso; auto))|].
  destruct (test 1 NUMERIC_REGEX name) eqn:TN.
  - repeat split; try reflexivity; try discriminate.
    intros _ _ F. exfalso. apply F. clear F.
    apply (test_token 1 1 1 8 digit_or_underscore name ltac:(lia)) in TN.
    apply (test_token 1 1 1 8 word name ltac:(lia)).
    destruct TN as (A & L & B). repeat split; try assumption.
    clear L B. induction name as [|c name IH]; [reflexivity|].
    cbn in A |- *. apply andb_true_iff in A as [Hc A].
    rewrite (IH A), andb_true_r.
    unfold in_class in Hc |- *. cbn [existsb digit_or_underscore word] in *.
    rewrite orb_false_r in Hc. rewrite orb_false_r.
    apply orb_true_iff in Hc. rewrite !orb_true_iff. tauto.
  - destruct (test 1 FORMAT_REGEX name);
      repeat split; try reflexivity; try discriminate;
        intros; exfalso; auto.
Qed.

Lemma validatedProjectName_rule_witness :
  validatedProjectName "CGATE" = Err (InvalidProjectName ReservedWord "CGATE")
  /\ validatedProjectName "CMD1234567890"
     = Err (InvalidProjectName ReservedCMDn "CMD1234567890")
  /\ validatedProjectName "___" = Err (InvalidProjectName AllNumeric "___")
  /\ validatedProjectName "" = Err (InvalidProjectName BadFormat "").
Proof.
  assert (R : forall n, ~ In n cgateReservedWords <->
                        existsb (String.eqb n) cgateReservedWords = false).
  { intros n. rewrite <- existsb_eqb_In. apply iff_sym, not_true_false. }
  assert (C : forall n, ~ cmd_number n <-> test 1 CMDN_REGEX n = false).
  { intros n. rewrite <- test_CMDN. apply iff_sym, not_true_false. }
  repeat apply conj.
  - apply (proj1 (validatedProjectName_rule "CGATE")).
    cbn. tauto.
  - apply (proj1 (proj2 (validatedProjectName_rule "CMD1234567890"))).
    + now apply R.
    + exists "1234567890". repeat split. discriminate.
  - apply (proj1 (proj2 (proj2 (validatedProjectName_rule "___")))).
    + now apply R.
    + now apply C.
    + repeat split; cbn; lia.
  - apply (proj2 (proj2 (proj2 (validatedProjectName_rule "")))).
    + now apply R.
    + now apply C.
    + intros (_ & L & _). cbn in L. lia.
Defined.

(** ** The order of the validation rules *)

Lemma digit_in_digit_or_underscore (s : string) :
  all_in_class digit s = true -> all_in_class digit_or_underscore s = true.
Proof.
  induction s as [|c s IH]; [reflexivity|].
  cbn [all_in_class]. rewrite !andb_true_iff. intros [Hc A].
  split; [|now apply IH].
  unfold in_class in Hc |- *. cbn [existsb digit digit_or_underscore] in *.
  rewrite orb_false_r in Hc. now rewrite Hc.
Qed.

Lemma tokenb (cls : char_class) (lo hi : nat) (s : string) :
  token cls lo hi s
  <-> (all_in_class cls s
       && (lo <=? String.length s)%nat && (String.length s <=? hi)%nat) = true.
Proof.
  unfold token. rewrite !andb_true_iff, !Nat.leb_le. tauto.
Qed.

Lemma cmd_digits_number (name : string) :
  cmd_digits name = true <-> cmd_number name.
Proof.
  unfold cmd_number. split.
  - unfold cmd_digits.
    destruct name as [|[[] [] [] [] [] [] [] []] name]; try discriminate.
    destruct name as [|[[] [] [] [] [] [] [] []] name]; try discriminate.
    destruct name as [|[[] [] [] [] [] [] [] []] d]; try discriminate.
    rewrite andb_true_iff, negb_true_iff. intros [E A].
    exists d. repeat split; [|assumption].
    intros ->. discriminate.
  - intros (d & -> & Hd & A). cbn. rewrite A, andb_true_r.
    destruct d; [contradiction | reflexivity].
Qed.

(** The names the validation refuses are those that break a rule of
    section 3, and the names of digits and underscores that have an
    underscore. *)
Lemma validatedProjectName_invalid (name : string) :
  match validatedProjectName name with
  | Ok _ => invalid_name name = false /\ underscored_numeral name = false
  | Err e => category_of e = CatInvalidProjectName
             /\ (invalid_name name = true \/ underscored_numeral name = true)
  end.
Proof.
  assert (TC : test 1 CMDN_REGEX name = cmd_digits name).
  { apply eq_true_iff_eq. now rewrite test_CMDN, cmd_digits_number. }
  assert (TN : test 1 NUMERIC_REGEX name
               = all_in_class digit_or_underscore name
                 && (1 <=? String.length name)%nat
                 && (String.length name <=? 8)%nat).
  { apply eq_true_iff_eq. unfold NUMERIC_REGEX.
    rewrite test_token by lia. apply tokenb. }
  assert (TF : test 1 FORMAT_REGEX name = well_formatted name).
  { apply eq_true_iff_eq. unfold FORMAT_REGEX, well_formatted.
    rewrite test_token by lia. apply tokenb. }
  unfold validatedProjectName, invalid_name, reserved_word.
  rewrite TC, TN, TF.
  destruct (existsb (String.eqb name) cgateReservedWords); [cbn; auto|].
  destruct (cmd_digits name); [cbn; auto|].
  cbn [orb].
  unfold purely_numeric, underscored_numeral, well_formatted.
  pose proof (digit_in_digit_or_underscore name) as D.
  assert (F : (1 <=? String.length name)%nat = negb (name =? "")%string)
    by (destruct name; reflexivity).
  rewrite F.
  destruct (all_in_class digit name), (all_in_class digit_or_underscore name),
    (all_in_class word name), (String.length name <=? 8)%nat,
    (name =? "")%string; cbn; auto;
      specialize (D eq_refl); discriminate.
Qed.

(** C7, as the specification states it, fails in two places.  With a
    network out of range and the unit marker without a unit address the
    earliest violated rule is the range of the network, and the error
    raised is about the project name [1_2], which breaks none of the
    rules of a name.  With a channel and no group a rule of combination
    is violated, and the constructor raises no error. *)
Lemma first_violated_not_raised :
  (first_violated (Some "1_2") (Num 300) (Str "p") Undefined Undefined
   = Some CatOutOfRange
   /\ CBusNetId (Some "1_2") (Num 300) (Str "p") Undefined Undefined
      = Err (InvalidProjectName AllNumeric "1_2"))
  /\ (first_violated (Some "SHAC") (Num 254) Undefined Undefined (Num 5)
      = Some CatInvalidCombination
      /\ CBusNetId (Some "SHAC") (Num 254) Undefined Undefined (Num 5)
         = Ok (mkNetId "SHAC" (Some 254) None None None (Some 5))).
Proof.
  repeat split; reflexivity.
Qed.

(** C7, amended: when the project name is not a name of digits and
    underscores that has an underscore, every error the constructor
    raises belongs to the earliest violated kind in the order missing
    project, invalid project name, out-of-range numeric field, missing
    unit address, invalid combination; and when moreover the channel is
    absent or comes with a group, the constructor succeeds only if no
    rule is violated.  The constructor is a function of its arguments: it
    has no effect besides its result. *)
Theorem CBusNetId_first_violated p n p3 p4 p5 :
  (forall name, p = Some name -> underscored_numeral name = false) ->
  match CBusNetId p n p3 p4 p5 with
  | Err e => first_violated p n p3 p4 p5 = Some (category_of e)
  | Ok _ => channel_alone p3 p4 p5 = false ->
            first_violated p n p3 p4 p5 = None
  end.
Proof.
  intros H1.
  unfold first_violated, validation_order, CBusNetId.
  destruct p as [name|]; [|reflexivity].
  specialize (H1 name eq_refl).
  cbn [find violated].
  pose proof (validatedProjectName_invalid name) as Hp.
  destruct (validatedProjectName name) as [pr|e]; cbn [bind].
  2:{ destruct Hp as [Hc [Hi|Hu]]; [|congruence]. now rewrite Hi, Hc. }
  destruct Hp as [Hp _]. rewrite Hp. clear Hp H1.
  unfold channel_alone, requested_channel, requested_network,
    requested_application, requested_group, requested_unitAddress, unit_branch.
  assert (Hc : match (if truthy p5 then validatedChannelNumber p5 else Ok None) with
               | Ok o => o = (if truthy p5 then integerise p5 else None)
                         /\ outside_channel (if truthy p5 then integerise p5 else None) = false
               | Err e => category_of e = CatOutOfRange
                          /\ outside_channel (if truthy p5 then integerise p5 else None) = true
               end).
  { destruct (truthy p5); [apply validatedChannelNumber_cases | auto]. }
  destruct (if truthy p5 then validatedChannelNumber p5 else Ok None)
    as [ch|e]; destruct Hc as [Hc1 Hc2]; rewrite Hc2; cbn [bind].
  2:{ rewrite !orb_true_r. cbn. now rewrite Hc1. }
  rewrite orb_false_r.
  pose proof (validatedNumber_cases n "network") as Hn.
  destruct (validatedNumber n "network") as [nw|e]; destruct Hn as [Hn1 Hn2];
    rewrite Hn2; cbn [bind orb]; [|now rewrite Hn1].
  subst nw.
  destruct (is_p p3); cbn [outside_byte orb andb defined negb].
  - pose proof (validatedNumber_cases p4 "unitAddress") as Hu.
    destruct (validatedNumber p4 "unitAddress") as [ua|e];
      destruct Hu as [Hu1 Hu2]; rewrite Hu2; cbn [bind]; [|now rewrite Hu1].
    subst ua.
    destruct (integerise p4) as [u|]; cbn; [|reflexivity].
    destruct (integerise n) as [nv|]; cbn; [|reflexivity].
    rewrite andb_true_r. now intros ->.
  - pose proof (validatedNumber_cases p3 "application") as Ha.
    destruct (validatedNumber p3 "application") as [ap|e];
      destruct Ha as [Ha1 Ha2]; rewrite Ha2; cbn [bind orb]; [|now rewrite Ha1].
    subst ap.
    pose proof (validatedNumber_cases p4 "group") as Hg.
    destruct (validatedNumber p4 "group") as [gr|e];
      destruct Hg as [Hg1 Hg2]; rewrite Hg2; cbn [bind orb]; [|now rewrite Hg1].
    subst gr.
    destruct (integerise p4) as [g|], (integerise p3) as [a|],
      (integerise n) as [nv|]; cbn; try reflexivity;
        rewrite ?andb_true_r, ?andb_false_r; try reflexivity; now intros ->.
Qed.

Lemma CBusNetId_first_violated_witness :
  first_violated (Some "SHAC") (Num 254) (Num 56) (Num 191) (Num 8)
  = Some CatOutOfRange
  /\ first_violated (Some "SHAC") (Num 254) (Num 56) (Num 191) (Num 3) = None.
Proof.
  assert (H : forall name, Some "SHAC" = Some name ->
                           underscored_numeral name = false).
  { intros name [= <-]. reflexivity. }
  split.
  - exact (CBusNetId_first_violated (Some "SHAC") (Num 254) (Num 56) (Num 191)
                                    (Num 8) H).
  - exact (CBusNetId_first_violated (Some "SHAC") (Num 254) (Num 56) (Num 191)
                                    (Num 3) H eq_refl).
Defined.

(** ** What [isEquals] identifies *)

Lemma hexadecimal_inj (a b : Z) : hexadecimal a = hexadecimal b -> a = b.
Proof.
  unfold hexadecimal. intros H.
  assert (N : forall z, Z.to_hex_int z <> Hexadecimal.Pos Hexadecimal.Nil
                        /\ Z.to_hex_int z <> Hexadecimal.Neg Hexadecimal.Nil).
  { intros [|p|p]; cbn; split; try discriminate;
      intros [= E]; now apply HexadecimalPos.Unsigned.to_uint_nonnil in E. }
  apply (f_equal HexadecimalString.NilZero.int_of_string) in H.
  rewrite !HexadecimalString.NilZero.isi in H by apply N.
  injection H as H. now apply HexadecimalZ.to_int_inj.
Qed.

Lemma lor_add_low (y b k : Z) :
  0 <= k -> 0 <= b < 2 ^ k -> Z.lor (y * 2 ^ k) b = y * 2 ^ k + b.
Proof.
  intros Hk Hb. rewrite <- Z.add_lor_land.
  assert (L : Z.land (y * 2 ^ k) b = 0).
  { apply Z.bits_inj'. intros i Hi.
    rewrite Z.land_spec, Z.bits_0.
    destruct (Z.lt_ge_cases i k) as [Lt|Ge].
    - rewrite Z.mul_pow2_bits_low by lia. reflexivity.
    - rewrite <- (Z.mod_small b (2 ^ k)) by lia.
      rewrite Z.mod_pow2_bits_high by lia. apply andb_false_r. }
  rewrite L. lia.
Qed.

Lemma unit_fingerprint_sum n u :
  0 <= n <= 255 -> 0 <= u <= 255 ->
  unit_fingerprint n u = 33554432 + n * 65536 + u.
Proof.
  intros Hn Hu. unfold unit_fingerprint.
  rewrite !Z.shiftl_mul_pow2 by lia.
  assert (P24 : 2 ^ 24 = 16777216) by reflexivity.
  assert (P16 : 2 ^ 16 = 65536) by reflexivity.
  assert (P8 : 2 ^ 8 = 256) by reflexivity.
  rewrite (lor_add_low 2 (n * 2 ^ 16) 24) by lia.
  replace (2 * 2 ^ 24 + n * 2 ^ 16) with ((131072 + n * 256) * 2 ^ 8) by lia.
  rewrite lor_add_low by lia. lia.
Qed.

Lemma group_fingerprint_sum n a g :
  0 <= n <= 255 -> 0 <= a <= 255 -> 0 <= g <= 255 ->
  group_fingerprint n a g = 16777216 + n * 65536 + a * 256 + g.
Proof.
  intros Hn Ha Hg. unfold group_fingerprint.
  rewrite !Z.shiftl_mul_pow2 by lia.
  assert (P24 : 2 ^ 24 = 16777216) by reflexivity.
  assert (P16 : 2 ^ 16 = 65536) by reflexivity.
  assert (P8 : 2 ^ 8 = 256) by reflexivity.
  rewrite (lor_add_low 1 (n * 2 ^ 16) 24) by lia.
  replace (1 * 2 ^ 24 + n * 2 ^ 16) with ((256 + n) * 2 ^ 16) by lia.
  rewrite (lor_add_low (256 + n) (a * 2 ^ 8) 16) by lia.
  replace ((256 + n) * 2 ^ 16 + a * 2 ^ 8)
    with (((256 + n) * 256 + a) * 2 ^ 8) by lia.
  rewrite lor_add_low by lia. lia.
Qed.

Lemma hexadecimal_chars (z : Z) : all_in_class hex_char (hexadecimal z) = true.
Proof.
  assert (U : forall d, all_in_class hex_char
                          (HexadecimalString.NilEmpty.string_of_uint d) = true).
  { induction d; cbn [HexadecimalString.NilEmpty.string_of_uint all_in_class];
      rewrite ?IHd; reflexivity. }
  assert (V : forall d, all_in_class hex_char
                          (HexadecimalString.NilZero.string_of_uint d) = true).
  { intros d. unfold HexadecimalString.NilZero.string_of_uint.
    destruct d; (reflexivity || apply U). }
  unfold hexadecimal, HexadecimalString.NilZero.string_of_int.
  destruct (Z.to_hex_int z); [apply V|].
  cbn [all_in_class]. now rewrite V.
Qed.

Lemma upper_not_hex_char (c : ascii) :
  in_class upper c = true -> in_class hex_char c = false.
Proof.
  unfold in_class. cbn [existsb fst snd upper hex_char].
  change (nat_of_ascii "A") with 65%nat. change (nat_of_ascii "Z") with 90%nat.
  change (nat_of_ascii "0") with 48%nat. change (nat_of_ascii "9") with 57%nat.
  change (nat_of_ascii "a") with 97%nat. change (nat_of_ascii "f") with 102%nat.
  change (nat_of_ascii "-") with 45%nat.
  set (n := nat_of_ascii c). rewrite !orb_false_r.
  intros H. apply andb_true_iff in H as [H1 H2].
  apply Nat.leb_le in H1, H2.
  repeat match goal with
         | |- context [(?x <=? ?y)%nat] => destruct (Nat.leb_spec x y)
         end; cbn; try reflexivity; lia.
Qed.

Lemma upper_not_hex (s : string) :
  some_in_class upper s = true -> all_in_class hex_char s = false.
Proof.
  induction s as [|c s IH]; cbn [some_in_class all_in_class]; [discriminate|].
  intros H. apply orb_true_iff in H as [H|H].
  - now rewrite (upper_not_hex_char c H).
  - rewrite (IH H). apply andb_false_r.
Qed.

Lemma word_without_upper (c : ascii) :
  in_class word c = true -> in_class upper c = false ->
  in_class digit_or_underscore c = true.
Proof.
  unfold in_class. cbn [existsb fst snd upper word digit_or_underscore].
  rewrite !orb_false_r. intros H U. rewrite U in H. exact H.
Qed.

(** An accepted project name has an uppercase letter. *)
Lemma valid_name_upper (name : string) :
  validatedProjectName name = Ok name -> some_in_class upper name = true.
Proof.
  intros H. apply validatedProjectName_token in H as T.
  destruct (some_in_class upper name) eqn:U; [reflexivity|]. exfalso.
  assert (N : token digit_or_underscore 1 8 name).
  { destruct T as (A & L & B). repeat split; try assumption.
    clear L B H. induction name as [|c name IH]; [reflexivity|].
    cbn [some_in_class all_in_class] in A, U |- *.
    apply andb_true_iff in A as [Hc A].
    apply orb_false_iff in U as [Uc U].
    now rewrite (word_without_upper c Hc Uc), (IH A U). }
  revert H. unfold validatedProjectName.
  destruct (existsb (String.eqb name) cgateReservedWords); [discriminate|].
  destruct (test 1 CMDN_REGEX name); [discriminate|].
  apply (test_token 1 1 1 8 digit_or_underscore name ltac:(lia)) in N.
  change (Grp 1 (Rep 1 (Some 8%nat) digit_or_underscore)) with NUMERIC_REGEX in N.
  rewrite N. discriminate.
Qed.

Lemma valid_name_not_hexadecimal (name : string) (z : Z) :
  validatedProjectName name = Ok name -> name <> hexadecimal z.
Proof.
  intros H E. apply valid_name_upper, upper_not_hex in H.
  rewrite E, hexadecimal_chars in H. discriminate.
Qed.

Lemma in_byte_or_zero v : in_byte v -> 0 <= or_zero v <= 255.
Proof.
  intros H. destruct v as [z|]; cbn; [now apply H | lia].
Qed.

Lemma well_formed_hash_view x : well_formed x -> hash_view x.
Proof.
  intros W.
  pose proof (wf_group_application x W) as Hga.
  pose proof (wf_application_network x W) as Han.
  pose proof (wf_unit_network x W) as Hun.
  pose proof (wf_unit_branch x W) as Hub.
  destruct (network x) as [n|] eqn:En.
  - pose proof (wf_network x W n En) as Bn.
    destruct (unitAddress x) as [u|] eqn:Eu.
    + destruct (Hub eq_refl) as [Ha Hg].
      pose proof (wf_unitAddress x W u Eu) as Bu.
      apply (hash_unit x n u); try assumption.
      rewrite getHash_unit; try assumption.
      * now rewrite En, Eu, unit_fingerprint_sum.
      * unfold isProjectId. now rewrite En.
      * unfold isUnitId. now rewrite Eu.
    + pose proof (in_byte_or_zero _ (wf_application x W)) as Ba.
      pose proof (in_byte_or_zero _ (wf_group x W)) as Bg.
      apply (hash_group x n); try assumption.
      * intros Ha. destruct (group x); [|reflexivity].
        specialize (Hga eq_refl). rewrite Ha in Hga. discriminate.
      * rewrite getHash_group; try assumption.
        -- now rewrite En, group_fingerprint_sum.
        -- unfold isProjectId. now rewrite En.
        -- unfold isUnitId. now rewrite Eu.
  - assert (Ha : application x = None).
    { destruct (application x); [|reflexivity].
      specialize (Han eq_refl). discriminate. }
    assert (Hu : unitAddress x = None).
    { destruct (unitAddress x); [|reflexivity].
      specialize (Hun eq_refl). discriminate. }
    assert (Hg : group x = None).
    { destruct (group x); [|reflexivity].
      specialize (Hga eq_refl). rewrite Ha in Hga. discriminate. }
    apply hash_project; try assumption.
    unfold getHash, isProjectId. now rewrite En.
Qed.

Lemma isEquals_iff (a b : NetId) :
  isEquals a b = true <-> project a = project b /\ getHash a = getHash b.
Proof.
  unfold isEquals.
  destruct (String.eqb_spec (project a) (project b)) as [Hp|Hp]; cbn.
  - rewrite String.eqb_eq. tauto.
  - split; [discriminate | tauto].
Qed.

Lemma isEquals_well_formed (a b : NetId) :
  well_formed a -> well_formed b ->
  isEquals a b = true
  <-> project a = project b
      /\ network a = network b
      /\ unitAddress a = unitAddress b
      /\ or_zero (application a) = or_zero (application b)
      /\ or_zero (group a) = or_zero (group b).
Proof.
  intros Wa Wb. rewrite isEquals_iff.
  pose proof (wf_project a Wa) as Pa. pose proof (wf_project b Wb) as Pb.
  destruct (well_formed_hash_view a Wa)
    as [Na Aa Ga Ua Ha | na ua Na Ua Aa Ga Bna Bua Ha | na Na Ua Bna Baa Bga _ Ha];
    destruct (well_formed_hash_view b Wb)
      as [Nb Ab Gb Ub Hb | nb ub Nb Ub Ab Gb Bnb Bub Hb | nb Nb Ub Bnb Bab Bgb _ Hb];
    rewrite Ha, Hb, Na, Nb, Ua, Ub; rewrite ?Aa, ?Ab, ?Ga, ?Gb; cbn [or_zero].
  - tauto.
  - split; [|intros (_ & ? & _); discriminate].
    intros [E H]. exfalso. now apply (valid_name_not_hexadecimal _ _ Pa H).
  - split; [|intros (_ & ? & _); discriminate].
    intros [E H]. exfalso. now apply (valid_name_not_hexadecimal _ _ Pa H).
  - split; [|intros (_ & ? & _); discriminate].
    intros [E H]. exfalso. symmetry in H.
    now apply (valid_name_not_hexadecimal _ _ Pb H).
  - split.
    + intros [E H]. apply hexadecimal_inj in H.
      assert (na = nb /\ ua = ub) as [-> ->] by lia. tauto.
    + intros (E & [= ->] & [= ->] & _). tauto.
  - split; [|intros (_ & _ & ? & _); discriminate].
    intros [E H]. apply hexadecimal_inj in H. lia.
  - split; [|intros (_ & ? & _); discriminate].
    intros [E H]. exfalso. symmetry in H.
    now apply (valid_name_not_hexadecimal _ _ Pb H).
  - split; [|intros (_ & _ & ? & _); discriminate].
    intros [E H]. apply hexadecimal_inj in H. lia.
  - split.
    + intros [E H]. apply hexadecimal_inj in H.
      assert (na = nb /\ or_zero (application a) = or_zero (application b)
              /\ or_zero (group a) = or_zero (group b)) as (-> & Ea & Eg) by lia.
      tauto.
    + intros (E & [= ->] & _ & -> & ->). tauto.
Qed.

(** X3: on identifiers the constructor returns, [isEquals] holds exactly
    when the projects, the networks and the unit addresses are the same
    and the applications and the groups are the same once an absent one is
    counted as 0; the channel plays no part.  So identifiers of different
    projects, or one a unit and the other not, or one a Project-kind and
    the other not, are never equal. *)
Theorem isEquals_fields pa na a3 a4 a5 pb nb b3 b4 b5 (a b : NetId) :
  CBusNetId pa na a3 a4 a5 = Ok a ->
  CBusNetId pb nb b3 b4 b5 = Ok b ->
  isEquals a b = true
  <-> project a = project b
      /\ network a = network b
      /\ unitAddress a = unitAddress b
      /\ or_zero (application a) = or_zero (application b)
      /\ or_zero (group a) = or_zero (group b).
Proof.
  intros Ha Hb. apply isEquals_well_formed.
  - now apply CBusNetId_well_formed in Ha.
  - now apply CBusNetId_well_formed in Hb.
Qed.

Lemma isEquals_fields_witness :
  isEquals (mkNetId "SHAC" (Some 254) (Some 56) (Some 191) None (Some 3))
           (mkNetId "SHAC" (Some 254) (Some 56) (Some 191) None None) = true.
Proof.
  apply (isEquals_fields
           (Some "SHAC") (Num 254) (Num 56) (Num 191) (Num 3)
           (Some "SHAC") (Str "254") (Str "56") (Str "191") Undefined
           _ _ eq_refl eq_refl).
  repeat split.
Defined.

(** X4: on identifiers the constructor returns, [compare] ties exactly on
    the identifiers [isEquals] identifies, and there it answers 1 in both
    directions; on identifiers that are not equal it is antisymmetric. *)
Theorem compare_isEquals pa na a3 a4 a5 pb nb b3 b4 b5 (a b : NetId) :
  CBusNetId pa na a3 a4 a5 = Ok a ->
  CBusNetId pb nb b3 b4 b5 = Ok b ->
  (isEquals a b = true -> compare a b = 1 /\ compare b a = 1)
  /\ (isEquals a b = false -> compare a b = - compare b a).
Proof.
  intros Ha Hb.
  apply CBusNetId_well_formed in Ha, Hb.
  pose proof (isEquals_well_formed a b Ha Hb) as F.
  split.
  - intros E. pose proof (proj1 (isEquals_iff a b) E) as [Ep Eh].
    apply F in E as (_ & _ & Eu & _).
    unfold compare, isUnitId.
    rewrite Ep, Eh, Eu, !String.eqb_refl, !Bool.eqb_reflx, !string_lt_irrefl.
    split; reflexivity.
  - intros E. apply compare_antisym_distinct.
    destruct (string_dec (project a) (project b)) as [Ep|]; [|now left].
    destruct (string_dec (getHash a) (getHash b)) as [Eh|]; [|now right; right].
    exfalso. rewrite (proj2 (isEquals_iff a b) (conj Ep Eh)) in E. discriminate.
Qed.

Lemma compare_isEquals_witness :
  compare (mkNetId "SHAC" (Some 254) None None None None)
          (mkNetId "SHAC" (Some 254) (Some 0) (Some 0) None None) = 1
  /\ compare (mkNetId "SHAC" (Some 254) (Some 0) (Some 0) None None)
             (mkNetId "SHAC" (Some 254) None None None None) = 1.
Proof.
  exact (proj1 (compare_isEquals
                  (Some "SHAC") (Num 254) Undefined Undefined Undefined
                  (Some "SHAC") (Num 254) (Num 0) (Num 0) Undefined
                  _ _ eq_refl eq_refl) eq_refl).
Defined.

(** ** Texts and fields *)

Lemma round_trip_witness :
  exists y,
    parse (toString (mkNetId "SHAC" (Some 254) (Some 56) (Some 191) None (Some 3)))
    = Ok y
    /\ isEquals y (mkNetId "SHAC" (Some 254) (Some 56) (Some 191) None (Some 3))
       = true.
Proof.
  exact (round_trip (Some "SHAC") (Num 254) (Num 56) (Num 191) (Num 3)
                    _ eq_refl eq_refl).
Defined.

(** The text of an identifier does not show a channel that comes without
    a group. *)
Lemma toString_without_channel x :
  well_formed x -> isUnitId x && has_channel x = false ->
  toString (mkNetId (project x) (network x) (application x) (group x)
                    (unitAddress x)
                    (if defined (group x) && has_channel x
                     then channel x else None))
  = toString x.
Proof.
  intros W Hu.
  pose proof (wf_group_application x W) as Hga.
  pose proof (wf_unit_branch x W) as Hub.
  destruct x as [P nw ap gr ua ch].
  unfold isUnitId, has_channel in *.
  cbn [project network application group unitAddress channel] in *.
  destruct gr as [g|]; cbn [defined andb].
  - destruct (truthy_field ch) eqn:Hc; [reflexivity|].
    unfold toString, isProjectId, isNetworkId, isGroupId, isApplicationId.
    cbn [project network application group unitAddress channel truthy_field].
    now rewrite Hc.
  - unfold toString, isProjectId, isNetworkId, isGroupId, isApplicationId.
    cbn [project network application group unitAddress channel truthy_field
         defined andb negb].
    rewrite !andb_false_r.
    destruct ua as [u|]; cbn [defined] in Hu.
    + cbn in Hu. rewrite Hu. reflexivity.
    + destruct nw, ap; reflexivity.
Qed.

(** X5: printing and parsing normalise an identifier.  For every
    identifier [x] the constructor returns, other than a unit carrying a
    channel, [parse (toString x)] is an identifier [y] with the same text,
    and [y] is a fixed point: [parse (toString y)] is [y] itself. *)
Theorem canonical_text_stable p n p3 p4 p5 x :
  CBusNetId p n p3 p4 p5 = Ok x ->
  isUnitId x && has_channel x = false ->
  exists y, parse (toString x) = Ok y
            /\ toString y = toString x
            /\ parse (toString y) = Ok y.
Proof.
  intros H Hu. apply CBusNetId_well_formed in H as W.
  pose proof (parse_toString x W Hu) as E.
  pose proof (toString_without_channel x W Hu) as T.
  eexists. split; [exact E|]. split; [exact T|]. now rewrite T.
Qed.

Lemma canonical_text_stable_witness :
  exists y,
    parse (toString (mkNetId "SHAC" (Some 254) None None None (Some 3))) = Ok y
    /\ toString y = "//SHAC/254"
    /\ parse (toString y) = Ok y.
Proof.
  exact (canonical_text_stable (Some "SHAC") (Num 254) Undefined Undefined
                               (Num 3) _ eq_refl eq_refl).
Defined.

(** X6: the text determines the address.  Two identifiers the constructor
    returns, neither a unit carrying a channel, that print the same text
    have the same project, network, application, group and unit address,
    and [isEquals] holds of them. *)
Theorem toString_injective pa na a3 a4 a5 pb nb b3 b4 b5 (a b : NetId) :
  CBusNetId pa na a3 a4 a5 = Ok a ->
  CBusNetId pb nb b3 b4 b5 = Ok b ->
  isUnitId a && has_channel a = false ->
  isUnitId b && has_channel b = false ->
  toString a = toString b ->
  project a = project b /\ network a = network b
  /\ application a = application b /\ group a = group b
  /\ unitAddress a = unitAddress b /\ isEquals a b = true.
Proof.
  intros Ha Hb Ua Ub T.
  apply CBusNetId_well_formed in Ha, Hb.
  pose proof (parse_toString a Ha Ua) as Ea.
  pose proof (parse_toString b Hb Ub) as Eb.
  rewrite T, Eb in Ea. injection Ea as Ep En Eap Eg Eu _.
  symmetry in Ep, En, Eap, Eg, Eu.
  repeat split; try assumption.
  apply isEquals_iff. split; [assumption|].
  unfold getHash, isProjectId, isUnitId. now rewrite Ep, En, Eap, Eg, Eu.
Qed.

Lemma toString_injective_witness :
  isEquals (mkNetId "SHAC" (Some 254) (Some 56) None None (Some 3))
           (mkNetId "SHAC" (Some 254) (Some 56) None None None) = true.
Proof.
  exact (proj2 (proj2 (proj2 (proj2 (proj2
           (toString_injective
              (Some "SHAC") (Num 254) (Num 56) Undefined (Num 3)
              (Some "SHAC") (Num 254) (Str "56") Undefined Undefined
              _ _ eq_refl eq_refl eq_refl eq_refl eq_refl)))))).
Defined.

Lemma validatedNumber_Num n name :
  0 <= n <= 255 -> validatedNumber (Num n) name = Ok (Some n).
Proof.
  intros H. unfold validatedNumber, integerise.
  destruct (Z.ltb_spec n 0); [lia|]. destruct (Z.gtb_spec n 255); [lia|].
  reflexivity.
Qed.

Lemma validatedNumber_field v name :
  in_byte v -> validatedNumber (value_of_field v) name = Ok v.
Proof.
  intros H. destruct v as [z|]; [|reflexivity].
  apply validatedNumber_Num. now apply H.
Qed.

(** X7: an identifier can be rebuilt from its fields.  Calling the
    constructor with the project, the network, the application and the
    group (or the marker [`p`] and the unit address) and the channel of an
    identifier it returned gives that identifier back, provided the
    channel is not the number 0, which the constructor would drop. *)
Theorem rebuild_from_fields p n p3 p4 p5 x :
  CBusNetId p n p3 p4 p5 = Ok x ->
  channel x <> Some 0 ->
  CBusNetId (Some (project x)) (value_of_field (network x))
            (fst (branch_arguments x)) (snd (branch_arguments x))
            (value_of_field (channel x))
  = Ok x.
Proof.
  intros H Hc. apply CBusNetId_well_formed in H as W.
  pose proof (wf_project x W) as Hp.
  pose proof (wf_network x W) as Bn.
  pose proof (wf_application x W) as Ba.
  pose proof (wf_group x W) as Bg.
  pose proof (wf_unitAddress x W) as Bu.
  pose proof (wf_channel x W) as Bc.
  pose proof (wf_group_application x W) as Hga.
  pose proof (wf_application_network x W) as Han.
  pose proof (wf_unit_network x W) as Hun.
  pose proof (wf_unit_branch x W) as Hub.
  destruct x as [P nw ap gr ua ch]. unfold branch_arguments.
  cbn [project network application group unitAddress channel] in *.
  unfold CBusNetId. rewrite Hp. cbn [bind].
  assert (C : (if truthy (value_of_field ch)
               then validatedChannelNumber (value_of_field ch)
               else Ok None) = Ok ch).
  { destruct ch as [c|]; [|reflexivity]. cbn [value_of_field truthy].
    destruct (Z.eqb_spec c 0) as [->|Nz]; [congruence|]. cbn [negb].
    unfold validatedChannelNumber, integerise.
    specialize (Bc c eq_refl).
    destruct (Z.eqb_spec c 0); [contradiction|]. cbn [negb andb].
    destruct (Z.leb_spec c 0); [lia|]. destruct (Z.geb_spec c 8); [lia|].
    reflexivity. }
  rewrite C. cbn [bind].
  rewrite (validatedNumber_field nw "network" Bn). cbn [bind].
  destruct ua as [u|]; cbn [fst snd is_p String.eqb Ascii.eqb Bool.eqb].
  - destruct (Hub eq_refl) as [-> ->].
    rewrite (validatedNumber_Num u "unitAddress" (Bu u eq_refl)).
    cbn [bind defined negb].
    destruct nw; [reflexivity|]. specialize (Hun eq_refl). discriminate.
  - replace (is_p (value_of_field ap)) with false by now destruct ap.
    rewrite (validatedNumber_field ap "application" Ba). cbn [bind].
    rewrite (validatedNumber_field gr "group" Bg). cbn [bind].
    destruct gr, ap, nw; cbn; try reflexivity;
      try (specialize (Hga eq_refl); discriminate);
      try (specialize (Han eq_refl); discriminate).
Qed.

Lemma rebuild_from_fields_witness :
  CBusNetId (Some "SHAC") (Num 254) (Str "p") (Num 22) Undefined
  = Ok (mkNetId "SHAC" (Some 254) None None (Some 22) None).
Proof.
  exact (rebuild_from_fields (Some "SHAC") (Str "254") (Str "p") (Str "22")
                             Undefined _ eq_refl ltac:(discriminate)).
Defined.

(** ** What [parse] hands to the constructor *)

Lemma rep_class_full cls s1 :
  forall lo s2 caps (k : continuation) m,
    all_in_class cls s1 = true ->
    (lo <= String.length s1)%nat ->
    k s2 caps = Some m ->
    rep_class cls lo (Some (String.length s1)) (s1 ++ s2) caps k = Some m.
Proof.
  induction s1 as [|c s1 IH]; intros lo s2 caps k m A L Hk.
  - cbn [String.length append]. now destruct s2.
  - cbn in A. apply andb_true_iff in A as [Hc A]. cbn in L.
    cbn [String.length append rep_class option_map Nat.pred]. rewrite Hc.
    rewrite (IH (Nat.pred lo) s2 caps k m A ltac:(lia) Hk).
    now destruct lo.
Qed.

Lemma rmatch_Grp_full i cls lo hi s1 s2 caps (k : continuation) m :
  token cls lo hi s1 -> String.length s1 = hi ->
  k s2 (set_capture i s1 caps) = Some m ->
  rmatch (Grp i (Rep lo (Some hi) cls)) (s1 ++ s2) caps k = Some m.
Proof.
  intros (A & L & _) <- Hk. cbn [rmatch].
  apply rep_class_full; try assumption.
  now rewrite consumed_append.
Qed.

Lemma rmatch_Opt_skip r s caps (k : continuation) :
  rmatch r s caps
         (fun s' caps' =>
            if (String.length s' =? String.length s)%nat
            then None else k s' caps') = None ->
  rmatch (Opt r) s caps k = k s caps.
Proof.
  intros H. cbn [rmatch]. now rewrite H.
Qed.

Lemma rmatch_Opt_miss c r d s caps (k : continuation) :
  (c =? d)%char = false ->
  rmatch (Opt (Seq (Chr c) r)) (String d s) caps k = k (String d s) caps.
Proof.
  intros H. apply rmatch_Opt_skip. cbn [rmatch]. now rewrite H.
Qed.

Lemma rmatch_Opt_Chr_miss c d s caps (k : continuation) :
  (c =? d)%char = false ->
  rmatch (Opt (Chr c)) (String d s) caps k = k (String d s) caps.
Proof.
  intros H. apply rmatch_Opt_skip. cbn [rmatch]. now rewrite H.
Qed.

Lemma digit_not_slash (d : ascii) :
  in_class digit d = true -> ("/" =? d)%char = false.
Proof.
  intros H. destruct (Ascii.eqb_spec "/" d) as [<-|]; [discriminate | reflexivity].
Qed.

(** One step of the matcher, also past an optional part that fails at
    once. *)
Ltac rstep_skip :=
  cbv beta;
  lazymatch goal with
  | |- rmatch (Opt _) _ _ _ = _ =>
    first [ rewrite rmatch_Opt_skip by reflexivity
          | rewrite rmatch_Opt_miss by (now apply digit_not_slash)
          | rewrite rmatch_Opt_Chr_miss by (now apply digit_not_slash)
          | apply rmatch_Opt_take ]
  | |- rmatch (Grp _ (Rep _ _ _)) (_ ++ _) _ _ = Some _ =>
    first [ apply rmatch_Grp_token; [assumption | reflexivity |]
          | apply rmatch_Grp_full; [assumption | assumption |] ]
  | _ => rstep
  end.

Section SlashedTexts.

Variables P N A G U : string.
Hypothesis HP : token word 1 8 P.
Hypothesis HN : token digit 1 3 N.
Hypothesis HA : token digit 1 3 A.
Hypothesis HG : token digit 1 3 G.
Hypothesis HU : token digit 1 3 U.

Lemma match_project_slash :
  match_anchored 5 NETID_REGEX ("//" ++ P ++ "/")
  = Some [Some ("//" ++ P ++ "/"); Some P; None; None; None; None].
Proof using HP.
  unfold match_anchored, NETID_REGEX. cbn [append repeat].
  repeat rstep_skip. reflexivity.
Qed.

Lemma match_network_slash :
  match_anchored 5 NETID_REGEX ("//" ++ P ++ "/" ++ N ++ "/")
  = Some [Some ("//" ++ P ++ "/" ++ N ++ "/"); Some P; Some N; None; None; None].
Proof using HP HN.
  unfold match_anchored, NETID_REGEX. cbn [append repeat].
  repeat rstep_skip. reflexivity.
Qed.

Lemma match_application_slash :
  match_anchored 5 NETID_REGEX ("//" ++ P ++ "/" ++ N ++ "/" ++ A ++ "/")
  = Some [Some ("//" ++ P ++ "/" ++ N ++ "/" ++ A ++ "/");
          Some P; Some N; Some A; None; None].
Proof using HP HN HA.
  unfold match_anchored, NETID_REGEX. cbn [append repeat].
  repeat rstep_skip. reflexivity.
Qed.

Lemma match_group_slash :
  match_anchored 5 NETID_REGEX
    ("//" ++ P ++ "/" ++ N ++ "/" ++ A ++ "/" ++ G ++ "/")
  = Some [Some ("//" ++ P ++ "/" ++ N ++ "/" ++ A ++ "/" ++ G ++ "/");
          Some P; Some N; Some A; Some G; None].
Proof using HP HN HA HG.
  unfold match_anchored, NETID_REGEX. cbn [append repeat].
  repeat rstep_skip. reflexivity.
Qed.

Lemma match_unit_slash :
  match_anchored 5 NETID_REGEX ("//" ++ P ++ "/" ++ N ++ "/p/" ++ U ++ "/")
  = Some [Some ("//" ++ P ++ "/" ++ N ++ "/p/" ++ U ++ "/");
          Some P; Some N; Some "p"; Some U; None].
Proof using HP HN HU.
  unfold match_anchored, NETID_REGEX. cbn [append repeat].
  repeat rstep_skip. reflexivity.
Qed.

End SlashedTexts.

Ltac parse_with L :=
  unfold parse; rewrite L by assumption;
  cbn [component nth value_of_component]; reflexivity.

(** X8: on a text made of a project name and of one to three digit
    numbers in one of the six forms the source comment lists (with the
    channel form), [parse] calls the constructor with exactly these
    pieces, as strings, the others being [undefined]. *)
Theorem parse_delegates (P N A G C U : string) :
  token word 1 8 P -> token digit 1 3 N -> token digit 1 3 A ->
  token digit 1 3 G -> token digit 1 3 C -> token digit 1 3 U ->
  parse ("//" ++ P)
  = CBusNetId (Some P) Undefined Undefined Undefined Undefined
  /\ parse ("//" ++ P ++ "/" ++ N)
     = CBusNetId (Some P) (Str N) Undefined Undefined Undefined
  /\ parse ("//" ++ P ++ "/" ++ N ++ "/" ++ A)
     = CBusNetId (Some P) (Str N) (Str A) Undefined Undefined
  /\ parse ("//" ++ P ++ "/" ++ N ++ "/" ++ A ++ "/" ++ G)
     = CBusNetId (Some P) (Str N) (Str A) (Str G) Undefined
  /\ parse ("//" ++ P ++ "/" ++ N ++ "/" ++ A ++ "/" ++ G ++ "/" ++ C)
     = CBusNetId (Some P) (Str N) (Str A) (Str G) (Str C)
  /\ parse ("//" ++ P ++ "/" ++ N ++ "/p/" ++ U)
     = CBusNetId (Some P) (Str N) (Str "p") (Str U) Undefined.
Proof.
  intros HP HN HA HG HC HU. repeat apply conj.
  - parse_with match_project_text.
  - parse_with match_network_text.
  - parse_with match_application_text.
  - parse_with match_group_text.
  - parse_with match_channel_text.
  - parse_with match_unit_text.
Qed.

Lemma parse_delegates_witness :
  parse "//SHAC/254/56/191/3"
  = CBusNetId (Some "SHAC") (Str "254") (Str "56") (Str "191") (Str "3").
Proof.
  assert (D : forall s, all_in_class digit s = true ->
                        (1 <= String.length s <= 3)%nat -> token digit 1 3 s).
  { intros s A L. repeat split; (assumption || lia). }
  refine (proj1 (proj2 (proj2 (proj2 (proj2
            (parse_delegates "SHAC" "254" "56" "191" "3" "22" _ _ _ _ _ _)))))).
  - repeat split; cbn; lia.
  - apply D; cbn; [reflexivity | lia].
  - apply D; cbn; [reflexivity | lia].
  - apply D; cbn; [reflexivity | lia].
  - apply D; cbn; [reflexivity | lia].
  - apply D; cbn; [reflexivity | lia].
Defined.

(** X9: a slash at the end of a text without a channel changes nothing:
    [parse] gives the same result, identifier or error, with and without
    it. *)
Theorem parse_trailing_slash (P N A G U : string) :
  token word 1 8 P -> token digit 1 3 N -> token digit 1 3 A ->
  token digit 1 3 G -> token digit 1 3 U ->
  parse ("//" ++ P ++ "/") = parse ("//" ++ P)
  /\ parse ("//" ++ P ++ "/" ++ N ++ "/") = parse ("//" ++ P ++ "/" ++ N)
  /\ parse ("//" ++ P ++ "/" ++ N ++ "/" ++ A ++ "/")
     = parse ("//" ++ P ++ "/" ++ N ++ "/" ++ A)
  /\ parse ("//" ++ P ++ "/" ++ N ++ "/" ++ A ++ "/" ++ G ++ "/")
     = parse ("//" ++ P ++ "/" ++ N ++ "/" ++ A ++ "/" ++ G)
  /\ parse ("//" ++ P ++ "/" ++ N ++ "/p/" ++ U ++ "/")
     = parse ("//" ++ P ++ "/" ++ N ++ "/p/" ++ U).
Proof.
  intros HP HN HA HG HU. unfold parse. repeat apply conj.
  - now rewrite match_project_slash, match_project_text.
  - now rewrite match_network_slash, match_network_text.
  - now rewrite match_application_slash, match_application_text.
  - now rewrite match_group_slash, match_group_text.
  - now rewrite match_unit_slash, match_unit_text.
Qed.

Lemma parse_trailing_slash_witness :
  parse "//SHAC/254/p/22/" = parse "//SHAC/254/p/22".
Proof.
  assert (D : forall s, all_in_class digit s = true ->
                        (1 <= String.length s <= 3)%nat -> token digit 1 3 s).
  { intros s A L. repeat split; (assumption || lia). }
  refine (proj2 (proj2 (proj2 (proj2
            (parse_trailing_slash "SHAC" "254" "56" "191" "22" _ _ _ _ _))))).
  - repeat split; cbn; lia.
  - apply D; cbn; [reflexivity | lia].
  - apply D; cbn; [reflexivity | lia].
  - apply D; cbn; [reflexivity | lia].
  - apply D; cbn; [reflexivity | lia].
Defined.

Section GluedTexts.

Variables P N C' : string.
Variable d : ascii.
Hypothesis HP : token word 1 8 P.
Hypothesis HN : token digit 1 3 N.
Hypothesis HC : token digit 1 3 (String d C').
Hypothesis Hd : in_class digit d = true.

Lemma match_network_glued :
  String.length N = 3%nat ->
  match_anchored 5 NETID_REGEX ("//" ++ P ++ "/" ++ N ++ String d C')
  = Some [Some ("//" ++ P ++ "/" ++ N ++ String d C');
          Some P; Some N; None; None; Some (String d C')].
Proof using HP HN HC Hd.
  intros HL. unfold match_anchored, NETID_REGEX. cbn [append repeat].
  repeat rstep_skip. reflexivity.
Qed.

Lemma match_project_glued :
  String.length P = 8%nat ->
  match_anchored 5 NETID_REGEX ("//" ++ P ++ String d C')
  = Some [Some ("//" ++ P ++ String d C');
          Some P; None; None; None; Some (String d C')].
Proof using HP HC Hd.
  intros HL. unfold match_anchored, NETID_REGEX. cbn [append repeat].
  repeat rstep_skip. reflexivity.
Qed.

End GluedTexts.

(** X10: digits that follow a full segment without a slash are read as
    the channel.  After a network of three digits, and after a project
    name of eight characters, up to three more digits are handed to the
    constructor as its fifth argument. *)
Theorem parse_glued_channel (P N C : string) :
  token word 1 8 P -> token digit 1 3 N -> token digit 1 3 C ->
  (String.length N = 3%nat ->
   parse ("//" ++ P ++ "/" ++ N ++ C)
   = CBusNetId (Some P) (Str N) Undefined Undefined (Str C))
  /\ (String.length P = 8%nat ->
      parse ("//" ++ P ++ C)
      = CBusNetId (Some P) Undefined Undefined Undefined (Str C)).
Proof.
  intros HP HN HC.
  destruct (token_head _ _ _ _ HC) as (d & C' & -> & Hd).
  split; intros HL; unfold parse.
  - rewrite match_network_glued by assumption. reflexivity.
  - rewrite match_project_glued by assumption. reflexivity.
Qed.

Lemma parse_glued_channel_witness :
  parse "//SHAC/2545" = Ok (mkNetId "SHAC" (Some 254) None None None (Some 5))
  /\ parse "//ABCDEFGH1" = Ok (mkNetId "ABCDEFGH" None None None None (Some 1)).
Proof.
  assert (D : forall s, all_in_class digit s = true ->
                        (1 <= String.length s <= 3)%nat -> token digit 1 3 s).
  { intros s A L. repeat split; (assumption || lia). }
  split.
  - refine (proj1 (parse_glued_channel "SHAC" "254" "5" _ _ _) eq_refl).
    + repeat split; cbn; lia.
    + apply D; cbn; [reflexivity | lia].
    + apply D; cbn; [reflexivity | lia].
  - refine (proj2 (parse_glued_channel "ABCDEFGH" "254" "1" _ _ _) eq_refl).
    + repeat split; cbn; lia.
    + apply D; cbn; [reflexivity | lia].
    + apply D; cbn; [reflexivity | lia].
Defined.

(** ** Soundness of the matcher with its captures *)

Lemma rmatch_captures r :
  well_quantified r = true ->
  forall s caps (k : continuation) m,
    rmatch r s caps k = Some m ->
    exists s1 s2 caps',
      s = s1 ++ s2 /\ captures_of r s1 caps caps' /\ k s2 caps' = Some m.
Proof.
  induction r as [c | lo hi cls | r1 IH1 r2 IH2 | r1 IH1 r2 IH2 | r IH | i r IH];
    cbn [well_quantified rmatch]; intros W s caps k m H.
  - destruct s as [|d s]; [discriminate|].
    destruct (Ascii.eqb_spec c d) as [<-|]; [|discriminate].
    exists (String c ""), s, caps. repeat split; [constructor | assumption].
  - assert (W' : within hi lo).
    { destruct hi as [h|]; cbn; [now apply Nat.leb_le | exact I]. }
    destruct (rep_class_sound _ _ _ _ _ _ _ W' H) as (s1 & s2 & E & M & Hk).
    inversion M; subst.
    exists s1, s2, caps. repeat split; [now constructor | assumption].
  - apply andb_true_iff in W as [W1 W2].
    destruct (IH1 W1 _ _ _ _ H) as (s1 & s' & caps1 & -> & M1 & H2).
    destruct (IH2 W2 _ _ _ _ H2) as (s2 & s3 & caps2 & -> & M2 & Hk).
    exists (s1 ++ s2), s3, caps2. rewrite append_assoc.
    repeat split; [econstructor; eassumption | assumption].
  - apply andb_true_iff in W as [W1 W2].
    destruct (rmatch r1 s caps k) as [m1|] eqn:H1.
    + injection H as ->.
      destruct (IH1 W1 _ _ _ _ H1) as (s1 & s2 & caps' & E & M & Hk).
      exists s1, s2, caps'. repeat split; [assumption | | assumption].
      now apply C_Alt_l.
    + destruct (IH2 W2 _ _ _ _ H) as (s1 & s2 & caps' & E & M & Hk).
      exists s1, s2, caps'. repeat split; [assumption | | assumption].
      now apply C_Alt_r.
  - match type of H with
    | match ?a with Some _ => _ | None => _ end = _ =>
      destruct a as [m1|] eqn:H1
    end.
    + injection H as ->.
      destruct (IH W _ _ _ _ H1) as (s1 & s2 & caps' & E & M & Hk).
      destruct (String.length s2 =? String.length s)%nat; [discriminate|].
      exists s1, s2, caps'. repeat split; [assumption | | assumption].
      now apply C_Opt_some.
    + exists "", s, caps. repeat split; [constructor | assumption].
  - destruct (IH W _ _ _ _ H) as (s1 & s2 & caps' & -> & M & Hk).
    exists s1, s2, (set_capture i s1 caps').
    rewrite consumed_append in Hk.
    repeat split; [now constructor | assumption].
Qed.

Lemma captures_of_Chr_inv c s c0 c1 :
  captures_of (Chr c) s c0 c1 -> c1 = c0.
Proof.
  intros H. now inversion H.
Qed.

Lemma captures_of_Seq_inv r1 r2 s c0 c2 :
  captures_of (Seq r1 r2) s c0 c2 ->
  exists s1 s2 c1, captures_of r1 s1 c0 c1 /\ captures_of r2 s2 c1 c2.
Proof.
  intros H. inversion H; subst. eauto.
Qed.

Lemma captures_of_Alt_inv r1 r2 s c0 c1 :
  captures_of (Alt r1 r2) s c0 c1 ->
  captures_of r1 s c0 c1 \/ captures_of r2 s c0 c1.
Proof.
  intros H. inversion H; subst; auto.
Qed.

Lemma captures_of_Opt_inv r s c0 c1 :
  captures_of (Opt r) s c0 c1 -> c1 = c0 \/ captures_of r s c0 c1.
Proof.
  intros H. inversion H; subst; auto.
Qed.

Lemma captures_of_Grp_token_inv i lo hi cls s c0 c1 :
  captures_of (Grp i (Rep lo (Some hi) cls)) s c0 c1 ->
  c1 = set_capture i s c0 /\ token cls lo hi s.
Proof.
  intros H. inversion H as [ | | | | | | | i' r s' c0' cm M ]; subst.
  inversion M; subst. repeat split; assumption.
Qed.

Lemma captures_of_Grp_p_inv i lo hi cls s c0 c1 :
  captures_of (Grp i (Alt (Chr "p") (Rep lo (Some hi) cls))) s c0 c1 ->
  c1 = set_capture i s c0 /\ (s = "p" \/ token cls lo hi s).
Proof.
  intros H. inversion H as [ | | | | | | | i' r s' c0' cm M ]; subst.
  apply captures_of_Alt_inv in M as [M|M]; inversion M; subst.
  - auto.
  - split; [reflexivity|]. right. repeat split; assumption.
Qed.

Ltac invert_captures :=
  repeat match goal with
         | H : captures_of (Seq _ _) _ _ _ |- _ =>
           apply captures_of_Seq_inv in H as (? & ? & ? & ? & H)
         | H : captures_of (Chr _) _ _ _ |- _ =>
           apply captures_of_Chr_inv in H; subst
         | H : captures_of (Grp _ (Rep _ _ _)) _ _ _ |- _ =>
           apply captures_of_Grp_token_inv in H as [? ?]; subst
         | H : captures_of (Grp _ (Alt _ _)) _ _ _ |- _ =>
           apply captures_of_Grp_p_inv in H as [? ?]; subst
         | H : captures_of (Opt _) _ _ _ |- _ =>
           apply captures_of_Opt_inv in H as [? | H]; subst
         end.

Lemma match_nested (s : string) (m : captures) :
  match_anchored 5 NETID_REGEX s = Some m -> nested_components m.
Proof.
  unfold match_anchored. intros H.
  destruct (rmatch_captures NETID_REGEX eq_refl _ _ _ _ H)
    as (s1 & s2 & caps' & _ & M & E).
  destruct s2; [|discriminate]. injection E as <-.
  unfold NETID_REGEX in M. cbn [repeat] in M.
  invert_captures;
    (constructor; cbn [set_capture component nth];
     [ eexists; split; [reflexivity | assumption]
     | intros ? [= <-] || discriminate ..]);
    try assumption; try (split; [assumption | discriminate]).
Qed.

Lemma digit_cases (c : ascii) :
  in_class digit c = true ->
  In c ["0"; "1"; "2"; "3"; "4"; "5"; "6"; "7"; "8"; "9"]%char.
Proof.
  unfold in_class. cbn [existsb fst snd digit].
  change (nat_of_ascii "0") with 48%nat. change (nat_of_ascii "9") with 57%nat.
  rewrite orb_false_r. intros H. apply andb_true_iff in H as [H1 H2].
  apply Nat.leb_le in H1, H2.
  rewrite <- (ascii_nat_embedding c).
  assert (E : (nat_of_ascii c = 48 \/ nat_of_ascii c = 49 \/ nat_of_ascii c = 50
               \/ nat_of_ascii c = 51 \/ nat_of_ascii c = 52
               \/ nat_of_ascii c = 53 \/ nat_of_ascii c = 54
               \/ nat_of_ascii c = 55 \/ nat_of_ascii c = 56
               \/ nat_of_ascii c = 57)%nat) by lia.
  repeat (destruct E as [E|E]; [rewrite E; cbn; tauto|]).
  rewrite E. cbn. tauto.
Qed.

Lemma uint_of_digits (s : string) :
  all_in_class digit s = true ->
  exists u, DecimalString.NilEmpty.uint_of_string s = Some u.
Proof.
  induction s as [|c s IH]; cbn [all_in_class DecimalString.NilEmpty.uint_of_string].
  - eauto.
  - intros H. apply andb_true_iff in H as [Hc H].
    destruct (IH H) as [u ->]. apply digit_cases in Hc. cbn in Hc.
    repeat (destruct Hc as [<-|Hc]; [cbn; eauto|]). contradiction.
Qed.

(** A text of digits is a number for the constructor. *)
Lemma integerise_digits (s : string) :
  token digit 1 3 s -> defined (integerise (Str s)) = true.
Proof.
  intros T. destruct (token_head _ _ _ _ T) as (c & s' & -> & Hc).
  destruct T as (A & _). destruct (uint_of_digits _ A) as [u Hu].
  unfold integerise, DecimalString.NilZero.int_of_string,
    DecimalString.NilZero.uint_of_string.
  destruct (Ascii.eqb_spec c "-") as [->|_]; [discriminate|].
  now rewrite Hu.
Qed.

(** The constructor does not complain about the hierarchy when its
    arguments are nested as the hierarchy is. *)
Lemma CBusNetId_nested name n p3 p4 p5 e :
  CBusNetId (Some name) n p3 p4 p5 = Err e ->
  (is_p p3 = false -> defined (integerise p4) = true ->
   defined (integerise p3) = true) ->
  (is_p p3 = false -> defined (integerise p3) = true ->
   defined (integerise n) = true) ->
  (is_p p3 = true -> defined (integerise n) = true) ->
  category_of e = CatInvalidProjectName \/ category_of e = CatOutOfRange
  \/ e = MissingUnitAddress.
Proof.
  unfold CBusNetId. intros H Hga Han Hun.
  destruct (validatedProjectName name) as [pr|e0] eqn:Hp; cbn [bind] in H.
  2:{ injection H as <-. left. now apply validatedProjectName_Err in Hp. }
  destruct (if truthy p5 then validatedChannelNumber p5 else Ok None)
    as [ch|e0] eqn:Hc; cbn [bind] in H.
  2:{ injection H as <-. right. left. destruct (truthy p5); [|discriminate].
      now apply validatedChannelNumber_Err in Hc as (z & _ & _ & ->). }
  assert (V : forall v nm e0, validatedNumber v nm = Err e0 ->
                              category_of e0 = CatOutOfRange).
  { intros v nm e0 E. now apply validatedNumber_Err in E as (z & _ & _ & ->). }
  destruct (validatedNumber n "network") as [nw|e0] eqn:Hn; cbn [bind] in H.
  2:{ injection H as <-. right. left. now apply (V _ _ _ Hn). }
  apply validatedNumber_Ok in Hn as [-> _].
  destruct (is_p p3).
  - destruct (validatedNumber p4 "unitAddress") as [ua|e0] eqn:Hu;
      cbn [bind] in H.
    2:{ injection H as <-. right. left. now apply (V _ _ _ Hu). }
    destruct ua; cbn in H; [|injection H as <-; auto].
    rewrite (Hun eq_refl) in H. discriminate.
  - destruct (validatedNumber p3 "application") as [ap|e0] eqn:Ha;
      cbn [bind] in H.
    2:{ injection H as <-. right. left. now apply (V _ _ _ Ha). }
    destruct (validatedNumber p4 "group") as [gr|e0] eqn:Hg; cbn [bind] in H.
    2:{ injection H as <-. right. left. now apply (V _ _ _ Hg). }
    apply validatedNumber_Ok in Ha as [-> _].
    apply validatedNumber_Ok in Hg as [-> _].
    specialize (Hga eq_refl). specialize (Han eq_refl).
    destruct (integerise p4), (integerise p3), (integerise n); cbn in *;
      try discriminate;
      try (specialize (Hga eq_refl); discriminate);
      try (specialize (Han eq_refl); discriminate).
Qed.

(** X11: [parse] fails in four ways only: the text is badly formed, the
    project name is refused, a number is out of range, or the text asks
    for a unit ([/p]) without a unit address.  It never reports a missing
    project nor a broken hierarchy, which the pattern rules out. *)
Theorem parse_error_kinds (text : string) (e : error) :
  parse text = Err e ->
  e = MalformedNetId text \/ category_of e = CatInvalidProjectName
  \/ category_of e = CatOutOfRange \/ e = MissingUnitAddress.
Proof.
  unfold parse.
  destruct (match_anchored 5 NETID_REGEX text) as [m|] eqn:M;
    [|intros [= <-]; auto].
  apply match_nested in M.
  destruct (nc_project m M) as (P & -> & _).
  pose proof (nc_second m M) as H2. pose proof (nc_third m M) as H3.
  pose proof (nc_fourth m M) as H4.
  intros H. right. apply (CBusNetId_nested _ _ _ _ _ _ H).
  - intros Np Dg.
    destruct (component 4 m) as [G|]; [|discriminate].
    destruct (H4 G eq_refl) as [_ N3].
    destruct (component 3 m) as [A|]; [|contradiction].
    destruct (H3 A eq_refl) as [[->|T] _]; [discriminate|].
    now apply integerise_digits.
  - intros Np Da.
    destruct (component 3 m) as [A|]; [|discriminate].
    destruct (H3 A eq_refl) as [_ N2].
    destruct (component 2 m) as [N|]; [|contradiction].
    now apply integerise_digits, H2.
  - intros Ip.
    destruct (component 3 m) as [A|]; [|discriminate].
    destruct (H3 A eq_refl) as [_ N2].
    destruct (component 2 m) as [N|]; [|contradiction].
    now apply integerise_digits, H2.
Qed.

Lemma parse_error_kinds_witness :
  MissingUnitAddress = MalformedNetId "//SHAC/254/p"
  \/ category_of MissingUnitAddress = CatInvalidProjectName
  \/ category_of MissingUnitAddress = CatOutOfRange
  \/ MissingUnitAddress = MissingUnitAddress.
Proof.
  exact (parse_error_kinds "//SHAC/254/p" MissingUnitAddress eq_refl).
Defined.

(** ** Which field an out-of-range error names *)

Lemma validatedNumber_outside v name z :
  integerise v = Some z -> outside_byte (Some z) = true ->
  validatedNumber v name = Err (OutOfRange name z).
Proof.
  unfold validatedNumber, outside_byte. intros -> H.
  apply negb_true_iff, andb_false_iff in H.
  destruct (Z.ltb_spec z 0); [reflexivity|].
  destruct (Z.gtb_spec z 255); [reflexivity|]. lia.
Qed.

Lemma validatedNumber_inside v name :
  outside_byte (integerise v) = false ->
  validatedNumber v name = Ok (integerise v).
Proof.
  unfold validatedNumber, outside_byte.
  destruct (integerise v) as [z|]; [|reflexivity]. intros H.
  apply negb_false_iff, andb_true_iff in H.
  destruct (Z.ltb_spec z 0); [lia|]. destruct (Z.gtb_spec z 255); [lia|].
  reflexivity.
Qed.

Lemma channel_outside p5 c :
  requested_channel p5 = Some c -> outside_channel (Some c) = true ->
  (if truthy p5 then validatedChannelNumber p5 else Ok None)
  = Err (OutOfRange "channel" c).
Proof.
  unfold requested_channel, outside_channel, validatedChannelNumber.
  destruct (truthy p5); [|discriminate]. intros -> H.
  apply andb_true_iff in H as [H0 H]. rewrite H0. cbn [andb].
  apply negb_true_iff, andb_false_iff in H.
  destruct (Z.leb_spec c 0); [reflexivity|].
  destruct (Z.geb_spec c 8); [reflexivity|]. lia.
Qed.

Lemma channel_inside p5 :
  outside_channel (requested_channel p5) = false ->
  (if truthy p5 then validatedChannelNumber p5 else Ok None)
  = Ok (requested_channel p5).
Proof.
  unfold requested_channel, outside_channel, validatedChannelNumber.
  destruct (truthy p5); [|reflexivity].
  destruct (integerise p5) as [c|]; [|reflexivity].
  destruct (c =? 0) eqn:Z0; cbn [negb andb]; [reflexivity|]. intros H.
  apply negb_false_iff, andb_true_iff in H.
  destruct (Z.leb_spec c 0); [lia|]. destruct (Z.geb_spec c 8); [lia|].
  reflexivity.
Qed.

(** X12: when the project name is accepted, the out-of-range error names
    the first offending field in the order channel, network, then unit
    address on the unit branch, or application and then group on the
    other branch, whatever the fields checked later hold. *)
Theorem out_of_range_field name n p3 p4 p5 :
  validatedProjectName name = Ok name ->
  (forall c, requested_channel p5 = Some c -> outside_channel (Some c) = true ->
             CBusNetId (Some name) n p3 p4 p5 = Err (OutOfRange "channel" c))
  /\ (outside_channel (requested_channel p5) = false ->
      (forall z, integerise n = Some z -> outside_byte (Some z) = true ->
                 CBusNetId (Some name) n p3 p4 p5
                 = Err (OutOfRange "network" z))
      /\ (outside_byte (integerise n) = false ->
          (is_p p3 = true ->
           forall z, integerise p4 = Some z -> outside_byte (Some z) = true ->
                     CBusNetId (Some name) n p3 p4 p5
                     = Err (OutOfRange "unitAddress" z))
          /\ (is_p p3 = false ->
              (forall z, integerise p3 = Some z ->
                         outside_byte (Some z) = true ->
                         CBusNetId (Some name) n p3 p4 p5
                         = Err (OutOfRange "application" z))
              /\ (outside_byte (integerise p3) = false ->
                  forall z, integerise p4 = Some z ->
                            outside_byte (Some z) = true ->
                            CBusNetId (Some name) n p3 p4 p5
                            = Err (OutOfRange "group" z))))).
Proof.
  intros Hp. unfold CBusNetId. rewrite Hp. cbn [bind]. split.
  - intros c Hc Oc. now rewrite (channel_outside p5 c Hc Oc).
  - intros Ic. rewrite (channel_inside p5 Ic). cbn [bind]. split.
    + intros z Hz Oz. now rewrite (validatedNumber_outside n "network" z Hz Oz).
    + intros In. rewrite (validatedNumber_inside n "network" In). cbn [bind].
      split; intros Ip; rewrite Ip.
      * intros z Hz Oz.
        now rewrite (validatedNumber_outside p4 "unitAddress" z Hz Oz).
      * split.
        -- intros z Hz Oz.
           now rewrite (validatedNumber_outside p3 "application" z Hz Oz).
        -- intros Ia z Hz Oz.
           rewrite (validatedNumber_inside p3 "application" Ia). cbn [bind].
           now rewrite (validatedNumber_outside p4 "group" z Hz Oz).
Qed.

Lemma out_of_range_field_witness :
  CBusNetId (Some "SHAC") (Num 300) (Num 56) (Num 999) (Num 9)
  = Err (OutOfRange "channel" 9)
  /\ CBusNetId (Some "SHAC") (Num 254) (Num 56) (Num 999) (Num 3)
     = Err (OutOfRange "group" 999).
Proof.
  split.
  - exact (proj1 (out_of_range_field "SHAC" (Num 300) (Num 56) (Num 999)
                                     (Num 9) eq_refl) 9 eq_refl eq_refl).
  - exact (proj2 (proj2 (proj2 (proj2
             (out_of_range_field "SHAC" (Num 254) (Num 56) (Num 999) (Num 3)
                                 eq_refl) eq_refl) eq_refl) eq_refl) eq_refl
             999 eq_refl eq_refl).
Defined.

(** ** Same network, same application *)

Lemma strict_eq_true (a b : option Z) : strict_eq a b = true <-> a = b.
Proof.
  destruct a as [x|], b as [y|]; cbn; split; try congruence.
  - intros H. apply Z.eqb_eq in H. now subst.
  - intros [= ->]. apply Z.eqb_refl.
Qed.

(** X13: [isSameNetwork] and [isSameApplication] against [isEquals], on
    identifiers the constructor returns.  Equal identifiers are on the
    same network; identifiers of the same project that are on the same
    network and the same application, with the same group and the same
    unit address, are equal. *)
Theorem same_address_equal pa na a3 a4 a5 pb nb b3 b4 b5 (a b : NetId) :
  CBusNetId pa na a3 a4 a5 = Ok a ->
  CBusNetId pb nb b3 b4 b5 = Ok b ->
  (isEquals a b = true -> isSameNetwork a b = true)
  /\ (project a = project b ->
      isSameNetwork a b = true -> isSameApplication a b = true ->
      group a = group b -> unitAddress a = unitAddress b ->
      isEquals a b = true).
Proof.
  intros Ha Hb. apply CBusNetId_well_formed in Ha, Hb.
  pose proof (isEquals_well_formed a b Ha Hb) as F.
  unfold isSameNetwork, isSameApplication. rewrite !strict_eq_true. split.
  - intros E. now apply F in E.
  - intros Ep En Ea Eg Eu. apply F. now rewrite Ep, En, Ea, Eg, Eu.
Qed.

Lemma same_address_equal_witness :
  isSameNetwork (mkNetId "SHAC" (Some 254) None None None None)
                (mkNetId "SHAC" (Some 254) (Some 0) (Some 0) None None) = true.
Proof.
  exact (proj1 (same_address_equal
                  (Some "SHAC") (Num 254) Undefined Undefined Undefined
                  (Some "SHAC") (Num 254) (Num 0) (Num 0) Undefined
                  _ _ eq_refl eq_refl) eq_refl).
Defined.

Lemma compare_before_trans_witness :
  compare (mkNetId "HOME" (Some 254) None None None None)
          (mkNetId "SHAC" (Some 254) None None (Some 22) None) = -1.
Proof.
  exact (compare_before_trans
           (mkNetId "HOME" (Some 254) None None None None)
           (mkNetId "SHAC" (Some 254) (Some 56) None None None)
           (mkNetId "SHAC" (Some 254) None None (Some 22) None)
           eq_refl eq_refl).
Defined.

(** ** The order of hashes *)

Lemma hex_value_acc d : forall p,
  Z.pos (Pos.of_hex_uint_acc d p) = hex_value d (Z.pos p).
Proof.
  induction d; intros p; cbn [Pos.of_hex_uint_acc hex_value];
    try reflexivity; rewrite IHd; f_equal; cbn; lia.
Qed.

Lemma hex_value_of_uint d : Z.of_N (Pos.of_hex_uint d) = hex_value d 0.
Proof.
  induction d; cbn [Pos.of_hex_uint hex_value]; try reflexivity;
    try assumption;
    rewrite N2Z.inj_pos, hex_value_acc; reflexivity.
Qed.

Lemma hex_value_linear d : forall acc,
  hex_value d acc
  = acc * 16 ^ Z.of_nat (Hexadecimal.nb_digits d) + hex_value d 0.
Proof.
  induction d; intros acc; cbn [hex_value Hexadecimal.nb_digits];
    [lia | ..];
    rewrite Nat2Z.inj_succ, Z.pow_succ_r by lia;
    match goal with
    | |- hex_value d ?a = _ + hex_value d ?b => rewrite (IHd a), (IHd b)
    end; ring.
Qed.

Lemma hex_value_bound d :
  0 <= hex_value d 0 < 16 ^ Z.of_nat (Hexadecimal.nb_digits d).
Proof.
  induction d; cbn [hex_value Hexadecimal.nb_digits];
    [cbn; lia | ..];
    rewrite Nat2Z.inj_succ, Z.pow_succ_r by lia;
    match goal with
    | |- _ <= hex_value d ?a < _ => rewrite (hex_value_linear d a)
    end; lia.
Qed.

(** Two digit sequences of the same length compare as their values. *)
Lemma hex_order d1 : forall d2,
  Hexadecimal.nb_digits d1 = Hexadecimal.nb_digits d2 ->
  string_lt (HexadecimalString.NilEmpty.string_of_uint d1)
            (HexadecimalString.NilEmpty.string_of_uint d2) = true
  <-> hex_value d1 0 < hex_value d2 0.
Proof.
  unfold string_lt, String.ltb.
  induction d1; intros d2 E; destruct d2; try discriminate E;
    cbn [Hexadecimal.nb_digits] in E; try injection E as E;
    cbn [HexadecimalString.NilEmpty.string_of_uint String.compare hex_value].
  all: try (split; [discriminate | lia]).
  all: pose proof (hex_value_bound d1) as B1;
    pose proof (hex_value_bound d2) as B2; rewrite <- E in B2.
  all: rewrite (hex_value_linear d1 _), (hex_value_linear d2 _), <- E.
  all: set (X := 16 ^ Z.of_nat (Hexadecimal.nb_digits d1)) in *.
  all: set (v1 := hex_value d1 0) in *; set (v2 := hex_value d2 0) in *.
  all: try (change (Ascii.compare _ _) with Lt; cbn match; split; [intros _; lia | reflexivity]).
  all: try (change (Ascii.compare _ _) with Gt; cbn match; split; [discriminate | lia]).
  all: change (Ascii.compare _ _) with Eq; cbn match.
  all: rewrite (IHd1 d2 E); fold v1 v2; lia.
Qed.

Lemma to_hex_uint_unorm p :
  Hexadecimal.unorm (Pos.to_hex_uint p) = Pos.to_hex_uint p.
Proof.
  rewrite <- (HexadecimalPos.Unsigned.to_of (Pos.to_hex_uint p)).
  now rewrite HexadecimalPos.Unsigned.of_to.
Qed.

Lemma hex_value_lower d :
  Hexadecimal.unorm d = d -> d <> Hexadecimal.zero ->
  16 ^ (Z.of_nat (Hexadecimal.nb_digits d) - 1) <= hex_value d 0.
Proof.
  intros U NZ.
  destruct d; cbn [Hexadecimal.nb_digits hex_value];
    try (rewrite Nat2Z.inj_succ, hex_value_linear;
         replace (Z.succ (Z.of_nat (Hexadecimal.nb_digits d)) - 1)
           with (Z.of_nat (Hexadecimal.nb_digits d)) by lia;
         pose proof (hex_value_bound d); lia).
  - discriminate U.
  - exfalso. unfold Hexadecimal.unorm in U. cbn [Hexadecimal.nzhead] in U.
    pose proof (HexadecimalFacts.nb_digits_nzhead d) as L.
    destruct (Hexadecimal.nzhead d) eqn:N;
      try (rewrite U in L; cbn [Hexadecimal.nb_digits] in L; lia).
    injection U as <-. now apply NZ.
Qed.

Lemma hexadecimal_digits (k : nat) (v : Z) :
  16 ^ Z.of_nat k <= v < 16 ^ Z.of_nat (S k) ->
  exists d, hexadecimal v = HexadecimalString.NilEmpty.string_of_uint d
            /\ Hexadecimal.nb_digits d = S k /\ hex_value d 0 = v.
Proof.
  intros B.
  assert (0 < 16 ^ Z.of_nat k) by (apply Z.pow_pos_nonneg; lia).
  destruct v as [|p|p]; try lia.
  exists (Pos.to_hex_uint p).
  assert (V : hex_value (Pos.to_hex_uint p) 0 = Z.pos p).
  { now rewrite <- hex_value_of_uint, HexadecimalPos.Unsigned.of_to. }
  repeat split; [| |exact V].
  - unfold hexadecimal. cbn [Z.to_hex_int HexadecimalString.NilZero.string_of_int].
    unfold HexadecimalString.NilZero.string_of_uint.
    pose proof (HexadecimalPos.Unsigned.to_uint_nonnil p).
    now destruct (Pos.to_hex_uint p).
  - pose proof (hex_value_bound (Pos.to_hex_uint p)) as U.
    pose proof (hex_value_lower (Pos.to_hex_uint p) (to_hex_uint_unorm p)
                                (HexadecimalPos.Unsigned.to_uint_nonzero p)) as L.
    rewrite V in U, L.
    set (n := Hexadecimal.nb_digits (Pos.to_hex_uint p)) in *.
    destruct (Nat.lt_trichotomy n (S k)) as [Lt|[E|Gt]]; [|exact E|]; exfalso.
    + assert (16 ^ Z.of_nat n <= 16 ^ Z.of_nat k)
        by (apply Z.pow_le_mono_r; lia). lia.
    + assert (16 ^ Z.of_nat (S k) <= 16 ^ (Z.of_nat n - 1))
        by (apply Z.pow_le_mono_r; lia). lia.
Qed.

(** Hexadecimal renderings of the same length are ordered, as strings,
    like the numbers. *)
Lemma hexadecimal_order (k : nat) (a b : Z) :
  16 ^ Z.of_nat k <= a < 16 ^ Z.of_nat (S k) ->
  16 ^ Z.of_nat k <= b < 16 ^ Z.of_nat (S k) ->
  string_lt (hexadecimal a) (hexadecimal b) = true <-> a < b.
Proof.
  intros Ba Bb.
  destruct (hexadecimal_digits k a Ba) as (da & -> & Na & <-).
  destruct (hexadecimal_digits k b Bb) as (db & -> & Nb & <-).
  apply hex_order. congruence.
Qed.

(** X14: among identifiers the constructor returns that have the same
    project and a network, and are both units or both not, [compare]
    sorts by the numbers: by network, then application, then group (an
    absent one counting as 0), and units by network, then unit address.
    The order of the hexadecimal strings is the order of the numbers
    there. *)
Theorem compare_by_address pa na a3 a4 a5 pb nb b3 b4 b5 (a b : NetId) :
  CBusNetId pa na a3 a4 a5 = Ok a ->
  CBusNetId pb nb b3 b4 b5 = Ok b ->
  project a = project b ->
  isProjectId a = false -> isProjectId b = false ->
  isUnitId a = isUnitId b ->
  compare a b = -1 <-> address_before a b.
Proof.
  intros Ha Hb Ep Na Nb Eu.
  apply CBusNetId_well_formed in Ha, Hb.
  unfold compare. rewrite Ep, String.eqb_refl, Eu, Bool.eqb_reflx.
  cbn [negb].
  assert (L : string_lt (getHash a) (getHash b) = true <-> address_before a b).
  { unfold address_before, isProjectId, isUnitId in *.
    assert (P6 : 16 ^ Z.of_nat 6 = 16777216) by reflexivity.
    assert (P7 : 16 ^ Z.of_nat 7 = 268435456) by reflexivity.
    destruct (well_formed_hash_view a Ha)
      as [Xa _ _ _ _ | na' ua Xa Ua Aa Ga Bna Bua Ya | na' Xa Ua Bna Baa Bga _ Ya];
      [rewrite Xa in Na; discriminate | |];
      destruct (well_formed_hash_view b Hb)
        as [Xb _ _ _ _ | nb' ub Xb Ub Ab Gb Bnb Bub Yb | nb' Xb Ub Bnb Bab Bgb _ Yb];
      try (rewrite Xb in Nb; discriminate);
      rewrite Ua, Ub in Eu; try discriminate Eu;
      rewrite Ya, Yb, Xa, Xb, Ua, Ub; rewrite ?Aa, ?Ab, ?Ga, ?Gb;
      cbn [or_zero];
      rewrite (hexadecimal_order 6) by lia; lia. }
  destruct (string_lt (getHash a) (getHash b)).
  - split; [intros _; now apply L | reflexivity].
  - split; [discriminate|]. intros H. apply L in H. discriminate.
Qed.

Lemma compare_by_address_witness :
  compare (mkNetId "SHAC" (Some 9) (Some 200) None None None)
          (mkNetId "SHAC" (Some 10) (Some 56) (Some 1) None None) = -1.
Proof.
  refine (proj2 (compare_by_address
                   (Some "SHAC") (Num 9) (Num 200) Undefined Undefined
                   (Some "SHAC") (Num 10) (Num 56) (Num 1) Undefined
                   _ _ eq_refl eq_refl eq_refl eq_refl eq_refl eq_refl) _).
  left. reflexivity.
Defined.
